(** * Slack Block Kit builders ([skit.py]): a shallow embedding and its properties

    The module under study assembles chat payloads (sections, buttons,
    dividers) from a small record of caller-supplied fields.  Python
    strings are sequences of Unicode code points, payloads are nested
    [dict]/[list] values, one method edits caller-owned blocks in place,
    and [html.unescape] can raise; the embedding keeps all four as they
    are in the source. *)

From Stdlib Require Import String Ascii.
From stdpp Require Import base decidable option numbers list.

Set Warnings "-register-all".
Local Open Scope N_scope.

(** ** Python strings *)

(** A [str] is a sequence of code points; [len], slicing and the regular
    expressions of the source all count code points. *)
Definition char := N.
Definition pystr := list char.

(** Literals are written as in the source file, which is UTF-8: [str]
    decodes the bytes of a literal into code points. *)
Fixpoint utf8_decode (pending : nat) (acc : N) (bs : list N) : pystr :=
  match bs with
  | [] => []
  | b :: rest =>
      match pending with
      | O =>
          if b <? 128 then b :: utf8_decode 0 0 rest
          else if b <? 224 then utf8_decode 1 (b - 192) rest
          else if b <? 240 then utf8_decode 2 (b - 224) rest
          else utf8_decode 3 (b - 240) rest
      | S O => (acc * 64 + (b - 128)) :: utf8_decode 0 0 rest
      | S k => utf8_decode k (acc * 64 + (b - 128)) rest
      end
  end.

Definition str (s : string) : pystr :=
  utf8_decode 0 0 (map N_of_ascii (list_ascii_of_string s)).

(** The escape [\n] of a literal. *)
Definition newline : pystr := [10].

(** [f"{x}"] for an [Optional[str]] field: [None] prints as its name. *)
Definition fmt (x : option pystr) : pystr :=
  match x with
  | Some s => s
  | None => str "None"
  end.

(** Truth value of an [Optional[str]]: [None] and [""] are falsy. *)
Definition truthy (x : option pystr) : bool :=
  match x with
  | Some (_ :: _) => true
  | _ => false
  end.

(** [sep.join(parts)] *)
Fixpoint join (sep : pystr) (parts : list pystr) : pystr :=
  match parts with
  | [] => []
  | [p] => p
  | p :: rest => p ++ sep ++ join sep rest
  end.

(** [s.rstrip(c)] for a single character [c]. *)
Fixpoint rstrip (c : char) (s : pystr) : pystr :=
  match s with
  | [] => []
  | x :: rest =>
      match rstrip c rest with
      | [] => if x =? c then [] else [x]
      | r => x :: r
      end
  end.

(** The longest prefix of at most [n] characters that satisfy [p], and
    what follows it: a greedy bounded repetition of a character class. *)
Fixpoint span_upto (n : nat) (p : char -> bool) (s : pystr) : pystr * pystr :=
  match n, s with
  | S k, c :: rest =>
      if p c then let '(a, b) := span_upto k p rest in (c :: a, b)
      else ([], s)
  | _, _ => ([], s)
  end.

(** The same without a bound: a greedy [+] or [*] over a class. *)
Fixpoint span (p : char -> bool) (s : pystr) : pystr * pystr :=
  match s with
  | c :: rest =>
      if p c then let '(a, b) := span p rest in (c :: a, b)
      else ([], s)
  | [] => ([], [])
  end.

(** ** Python dictionaries with string keys

    Insertion-ordered, one entry per key. *)
Definition dict (V : Type) := list (pystr * V).

Fixpoint dict_get {V} (d : dict V) (k : pystr) : option V :=
  match d with
  | [] => None
  | (k', v) :: rest => if decide (k' = k) then Some v else dict_get rest k
  end.

Definition dict_contains {V} (d : dict V) (k : pystr) : bool :=
  match dict_get d k with
  | Some _ => true
  | None => false
  end.

(** [d[k] = v]: an existing key keeps its position. *)
Fixpoint dict_set {V} (d : dict V) (k : pystr) (v : V) : dict V :=
  match d with
  | [] => [(k, v)]
  | (k', v') :: rest =>
      if decide (k' = k) then (k, v) :: rest else (k', v') :: dict_set rest k v
  end.

(** ** Payload values

    The builders return fresh nested structures that nobody else holds;
    they are embedded by value. *)
Inductive pyval : Type :=
| PStr (s : pystr)
| PBool (b : bool)
| PList (l : list pyval)
| PDict (d : list (pystr * pyval)).

(** [v[k]] on a payload value, [None] standing for the [KeyError] or
    [TypeError] of the source. *)
Definition pv_getitem (v : pyval) (k : pystr) : option pyval :=
  match v with
  | PDict d => dict_get d k
  | _ => None
  end.

(** ** Exceptions

    [DanglingRef] is not a Python exception: it marks a reference to an
    address the store below does not hold. *)
Inductive exn : Type :=
  TypeError | KeyError | AttributeError | ValueError | DanglingRef.

(** What a call without side effects gives: a value, or an exception. *)
Inductive result (A : Type) : Type :=
| Ok (a : A)
| Err (e : exn).
Arguments Ok {A} a.
Arguments Err {A} e.

#[global] Instance result_ret : MRet result := fun A a => Ok a.
#[global] Instance result_bind : MBind result := fun A B f m =>
  match m with
  | Ok a => f a
  | Err e => Err e
  end.

(** ** Helpers of the source *)

Definition _mk_section (text : pystr) : pyval :=
  PDict [(str "type", PStr (str "section"));
         (str "text", PDict [(str "type", PStr (str "mrkdwn"));
                             (str "text", PStr text)])].

Definition _mk_button (text action_id : pystr) (style : option pystr)
    (value : pystr) : pyval :=
  let btn :=
    [(str "type", PStr (str "button"));
     (str "text", PDict [(str "type", PStr (str "plain_text"));
                         (str "text", PStr text);
                         (str "emoji", PBool true)]);
     (str "value", PStr value);
     (str "action_id", PStr action_id)] in
  PDict (match style with
         | Some (c :: s) => dict_set btn (str "style") (PStr (c :: s))
         | _ => btn
         end).

Definition _divider : pyval := PDict [(str "type", PStr (str "divider"))].


(** ** The regular expression of the links

    [HTTP_LINK_RE = re.compile(r"https?://[^\s)>\]]+", flags=re.IGNORECASE)] *)

Definition ch (c : ascii) : char := N_of_ascii c.
Arguments ch c%_char.

(** [\s] on a [str] pattern: the code points Python counts as white space. *)
Definition is_space (c : char) : bool :=
  ((9 <=? c) && (c <=? 13)) || ((28 <=? c) && (c <=? 32))
  || (c =? 0x85) || (c =? 0xa0) || (c =? 0x1680)
  || ((0x2000 <=? c) && (c <=? 0x200a))
  || (c =? 0x2028) || (c =? 0x2029) || (c =? 0x202f) || (c =? 0x205f)
  || (c =? 0x3000).

(** [[^\s)>\]]] *)
Definition link_char (c : char) : bool :=
  negb (is_space c || (c =? ch ")") || (c =? ch ">") || (c =? ch "]")).

(** A lower-case ASCII letter of the pattern under [re.IGNORECASE]: it
    matches itself and its capital; [s] also matches the long s (U+017F),
    which the engine treats as a case variant of [s]. *)
Definition ilit (p c : char) : bool :=
  (c =? p) || (c =? p - 32) || ((p =? ch "s") && (c =? 0x17f)).

(** A literal, case-sensitive prefix. *)
Fixpoint strip_prefix (p s : pystr) : option pystr :=
  match p, s with
  | [], _ => Some s
  | x :: p', c :: s' => if c =? x then strip_prefix p' s' else None
  | _ :: _, [] => None
  end.

(** The match of the pattern that starts at the first character of [s],
    if there is one.  Every quantifier is greedy; giving the [s] back
    cannot help, since the pattern goes on with a colon. *)
Definition match_link (s : pystr) : option pystr :=
  match s with
  | h :: t1 :: t2 :: p :: rest =>
      if ilit (ch "h") h && ilit (ch "t") t1 && ilit (ch "t") t2
         && ilit (ch "p") p
      then
        let '(s_opt, rest1) :=
          match rest with
          | c :: r => if ilit (ch "s") c then ([c], r) else ([], rest)
          | [] => ([], [])
          end in
        match strip_prefix (str "://") rest1 with
        | Some body =>
            match fst (span link_char body) with
            | [] => None
            | m => Some ([h; t1; t2; p] ++ s_opt ++ str "://" ++ m)
            end
        | None => None
        end
      else None
  | _ => None
  end.

(** [pattern.findall(s)]: the scanner tries each position from the left
    and resumes right after a match; [skip] counts the characters of the
    last match that are still to be passed over. *)
Fixpoint findall_from (skip : nat) (s : pystr) : list pystr :=
  match s with
  | [] => []
  | _ :: rest =>
      match skip with
      | S k => findall_from k rest
      | O =>
          match match_link s with
          | Some m => m :: findall_from (pred (length m)) rest
          | None => findall_from 0 rest
          end
      end
  end.

Definition HTTP_LINK_RE_findall (s : pystr) : list pystr := findall_from 0 s.


(** ** [html.unescape]

    The standard library's function, from its source.  Two things come
    from the interpreter that runs it.  The table of the HTML 5 named
    character references ([html.entities.html5], some two thousand
    entries): nothing below depends on what it holds.  And
    [sys.get_int_max_str_digits()], the limit on the digits of a decimal
    string that [int] converts: 4300 unless it was set, 0 for no limit. *)
Class Interpreter := {
  html5 : pystr -> option pystr;
  int_max_str_digits : nat
}.

(** A table keyed by numbers, and [table.get(n)]. *)
Fixpoint assoc {V} (table : list (N * V)) (n : N) : option V :=
  match table with
  | [] => None
  | (k, v) :: rest => if k =? n then Some v else assoc rest n
  end.

Definition _invalid_charrefs : list (N * char) :=
  [(0x00, 0xfffd); (0x0d, 0x0d); (0x80, 0x20ac); (0x81, 0x81);
   (0x82, 0x201a); (0x83, 0x0192); (0x84, 0x201e); (0x85, 0x2026);
   (0x86, 0x2020); (0x87, 0x2021); (0x88, 0x02c6); (0x89, 0x2030);
   (0x8a, 0x0160); (0x8b, 0x2039); (0x8c, 0x0152); (0x8d, 0x8d);
   (0x8e, 0x017d); (0x8f, 0x8f); (0x90, 0x90); (0x91, 0x2018);
   (0x92, 0x2019); (0x93, 0x201c); (0x94, 0x201d); (0x95, 0x2022);
   (0x96, 0x2013); (0x97, 0x2014); (0x98, 0x02dc); (0x99, 0x2122);
   (0x9a, 0x0161); (0x9b, 0x203a); (0x9c, 0x0153); (0x9d, 0x9d);
   (0x9e, 0x017e); (0x9f, 0x0178)].

Definition _invalid_codepoints (n : N) : bool :=
  ((0x1 <=? n) && (n <=? 0x8))
  || ((0xe <=? n) && (n <=? 0x1f))
  || ((0x7f <=? n) && (n <=? 0x9f))
  || ((0xfdd0 <=? n) && (n <=? 0xfdef))
  || (n =? 0xb)
  || ((n <=? 0x10ffff) && (0xfffe <=? n)
      && ((N.land n 0xffff =? 0xfffe) || (N.land n 0xffff =? 0xffff))).

Definition is_digit (c : char) : bool := (ch "0" <=? c) && (c <=? ch "9").

Definition is_hexdigit (c : char) : bool :=
  is_digit c || ((ch "a" <=? c) && (c <=? ch "f"))
  || ((ch "A" <=? c) && (c <=? ch "F")).

Definition digit_value (c : char) : N :=
  if is_digit c then c - ch "0"
  else if (ch "a" <=? c) then c - ch "a" + 10
  else c - ch "A" + 10.

(** The bases whose digits are groups of bits; [int] converts them in
    linear time and without a limit. *)
Definition binary_base (base : N) : bool :=
  (base =? 2) || (base =? 4) || (base =? 8) || (base =? 16) || (base =? 32).

(** [int(s, base)] on a string of digits of that base.  For a base that is
    no power of two CPython counts the digits first and raises
    [ValueError] when there are more than 640 of them and more than the
    interpreter's limit, unless that limit is 0 ([PyLong_FromString]). *)
Definition int `{Interpreter} (s : pystr) (base : N) : result N :=
  if negb (binary_base base) && (640 <? length s)%nat
     && (0 <? int_max_str_digits)%nat && (int_max_str_digits <? length s)%nat
  then Err ValueError
  else Ok (fold_left (fun acc c => acc * base + digit_value c) s 0).

(** [[^\t\n\f <&#;]] *)
Definition name_char (c : char) : bool :=
  negb ((c =? 9) || (c =? 10) || (c =? 12) || (c =? ch " ")
        || (c =? ch "<") || (c =? ch "&") || (c =? ch "#") || (c =? ch ";")).

(** An optional [;] after the body of a reference. *)
Definition opt_semicolon (s : pystr) : pystr :=
  match s with
  | c :: _ => if c =? ch ";" then [c] else []
  | [] => []
  end.

(** Group 1 of
    [_charref = &(#[0-9]+;?|#[xX][0-9a-fA-F]+;?|[^\t\n\f <&#;]{1,32};?)]
    matched right after an ampersand; [s] is what follows the ampersand. *)
Definition match_charref (s : pystr) : option pystr :=
  match s with
  | [] => None
  | c :: r =>
      if c =? ch "#" then
        match span is_digit r with
        | ((_ :: _) as ds, r') => Some (c :: ds ++ opt_semicolon r')
        | ([], _) =>
            match r with
            | x :: r1 =>
                if (x =? ch "x") || (x =? ch "X") then
                  match span is_hexdigit r1 with
                  | ((_ :: _) as hs, r') => Some (c :: x :: hs ++ opt_semicolon r')
                  | ([], _) => None
                  end
                else None
            | [] => None
            end
        end
      else
        match span_upto 32 name_char s with
        | ((_ :: _) as nm, r') => Some (nm ++ opt_semicolon r')
        | ([], _) => None
        end
  end.

(** The loop [for x in range(len(s)-1, 1, -1)] of [_replace_charref]:
    [x] runs down from its first value to 2. *)
Fixpoint longest_name `{Interpreter} (x : nat) (s : pystr) : pystr :=
  match x with
  | S ((S _) as x') =>
      match html5 (take x s) with
      | Some r => r ++ drop x s
      | None => longest_name x' s
      end
  | _ => ch "&" :: s
  end.

Definition _replace_charref `{Interpreter} (s : pystr) : result pystr :=
  match s with
  | c :: s1 =>
      if c =? ch "#" then
        num ← match s1 with
              | x :: s2 =>
                  if (x =? ch "x") || (x =? ch "X")
                  then int (rstrip (ch ";") s2) 16
                  else int (rstrip (ch ";") s1) 10
              | [] => Ok 0
              end;
        Ok match assoc _invalid_charrefs num with
           | Some r => [r]
           | None =>
               if ((0xD800 <=? num) && (num <=? 0xDFFF)) || (0x10FFFF <? num)
               then [0xFFFD]
               else if _invalid_codepoints num then []
               else [num]
           end
      else
        Ok match html5 s with
           | Some r => r
           | None => longest_name (pred (length s)) s
           end
  | [] => Ok []
  end.

(** [_charref.sub(_replace_charref, s)], scanning like [findall_from]; an
    exception of the replacement function ends the substitution. *)
Fixpoint charref_sub `{Interpreter} (skip : nat) (s : pystr) : result pystr :=
  match s with
  | [] => Ok []
  | c :: rest =>
      match skip with
      | S k => charref_sub k rest
      | O =>
          if c =? ch "&" then
            match match_charref rest with
            | Some g =>
                r ← _replace_charref g;
                t ← charref_sub (length g) rest;
                Ok (r ++ t)
            | None => t ← charref_sub 0 rest; Ok (c :: t)
            end
          else t ← charref_sub 0 rest; Ok (c :: t)
      end
  end.

Definition unescape `{Interpreter} (s : pystr) : result pystr :=
  if existsb (fun c => c =? ch "&") s then charref_sub 0 s else Ok s.

(** A few entries of the table, for running examples. *)
Definition html5_basic (name : pystr) : option pystr :=
  dict_get [(str "amp;", str "&"); (str "amp", str "&");
            (str "lt;", str "<"); (str "lt", str "<");
            (str "gt;", str ">"); (str "gt", str ">");
            (str "quot;", [34]); (str "quot", [34]);
            (str "not;", [0xac]); (str "not", [0xac]);
            (str "notin;", [0x2209]); (str "nbsp;", [0xa0])] name.

(** An interpreter as it starts: the limit is
    [sys.int_info.default_max_str_digits]. *)
Definition cpython : Interpreter :=
  {| html5 := html5_basic; int_max_str_digits := 4300 |}.


(** ** Caller-owned objects

    [feedback_update_block] assigns into the blocks it is given, and the
    caller (or another block) may hold the same objects.  They live in a
    store; a value is an immediate or a reference to a stored object. *)
Abbreviation addr := nat.

Inductive val : Type :=
| VNone
| VBool (b : bool)
| VInt (z : Z)
| VStr (s : pystr)
| VRef (a : addr).

Inductive obj : Type :=
| ODict (d : dict val)
| OList (l : list val).

Abbreviation store := (list obj).

(** A computation returns or raises; either way it leaves a store behind,
    with whatever was assigned before. *)
Inductive outcome (A : Type) : Type :=
| Returns (a : A) (σ : store)
| Raises (e : exn) (σ : store).
Arguments Returns {A} a σ.
Arguments Raises {A} e σ.

Definition M (A : Type) : Type := store -> outcome A.

#[global] Instance M_ret : MRet M := fun A a σ => Returns a σ.
#[global] Instance M_bind : MBind M := fun A B f m σ =>
  match m σ with
  | Returns a σ' => f a σ'
  | Raises e σ' => Raises e σ'
  end.

Definition raise {A} (e : exn) : M A := fun σ => Raises e σ.

(** A call without side effects, inside one that has them. *)
Definition lift {A} (r : result A) : M A := fun σ =>
  match r with
  | Ok a => Returns a σ
  | Err e => Raises e σ
  end.

Definition deref (a : addr) : M obj := fun σ =>
  match σ !! a with
  | Some o => Returns o σ
  | None => Raises DanglingRef σ
  end.

Definition assign (a : addr) (o : obj) : M unit := fun σ =>
  Returns tt (<[a := o]> σ).

Definition alloc (o : obj) : M val := fun σ =>
  Returns (VRef (length σ)) (σ ++ [o]).

(** [x == s] for a string [s]. *)
Definition py_eq_str (x : val) (s : pystr) : bool :=
  match x with
  | VStr s' => bool_decide (s' = s)
  | _ => false
  end.

(** The object on which [item.get] is called: only a [dict] has the
    method. *)
Definition as_dict (item : val) : M (dict val) :=
  match item with
  | VRef a =>
      o ← deref a;
      match o with
      | ODict d => mret d
      | OList _ => raise AttributeError
      end
  | _ => raise AttributeError
  end.

(** [v[k]] with a string key. *)
Definition py_getitem (v : val) (k : pystr) : M val :=
  match v with
  | VRef a =>
      o ← deref a;
      match o with
      | ODict d =>
          match dict_get d k with
          | Some x => mret x
          | None => raise KeyError
          end
      | OList _ => raise TypeError
      end
  | _ => raise TypeError
  end.

(** [v[k] = x] with a string key. *)
Definition py_setitem (v : val) (k : pystr) (x : val) : M unit :=
  match v with
  | VRef a =>
      o ← deref a;
      match o with
      | ODict d => assign a (ODict (dict_set d k x))
      | OList _ => raise TypeError
      end
  | _ => raise TypeError
  end.

(** [unescape(v)].  Its test ['&' not in s] also accepts a list or a
    dict, which is handed back as it is when it holds no ["&"]; the
    substitution itself wants a string. *)
Definition py_unescape `{Interpreter} (v : val) : M val :=
  match v with
  | VStr s => u ← lift (unescape s); mret (VStr u)
  | VRef a =>
      o ← deref a;
      match o with
      | OList l =>
          if existsb (fun x => py_eq_str x (str "&")) l
          then raise TypeError else mret v
      | ODict d =>
          if dict_contains d (str "&") then raise TypeError else mret v
      end
  | _ => raise TypeError
  end.

(** [v[:n]]: a prefix of a string, a new list for a list.  (Slicing a
    dict raises [TypeError] up to Python 3.11 and [KeyError] after.) *)
Definition py_slice_to (n : nat) (v : val) : M val :=
  match v with
  | VStr s => mret (VStr (take n s))
  | VRef a =>
      o ← deref a;
      match o with
      | OList l => alloc (OList (take n l))
      | ODict _ => raise TypeError
      end
  | _ => raise TypeError
  end.

(** ** The builder *)

Record BlockKit : Type := {
  thread : option pystr;
  question : option pystr;
  user_id : option pystr;
  block_body : option (list val);
  channel_id : option pystr;
  additional_details : option pystr;
  bot_id : option pystr;
  llm_answer : option pystr;
  llm_link : option pystr;
  channel_name : option pystr
}.

Definition channel_mapping : dict pystr :=
  [(str "help-gcp-apple", str "GCP");
   (str "help-aws-apple", str "AWS");
   (str "help-oci-apple", str "OCI");
   (str "help-icloud-apple", str "iCloud");
   (str "help-alicloud", str "Alicloud");
   (str "help-linux-found", str "Linux Foundation");
   (str "help-rubix", str "Rubix");
   (str "help-spinclou", str "Spincloud");
   (str "Rubix", str "Rubix");
   (str "GCP", str "GCP");
   (str "AWS", str "AWS");
   (str "OCI", str "OCI");
   (str "Alicloud", str "Alicloud")].

(** The assignment [self.channel_name = name]. *)
Definition with_channel_name (self : BlockKit) (name : option pystr) : BlockKit :=
  {| thread := thread self; question := question self;
     user_id := user_id self; block_body := block_body self;
     channel_id := channel_id self;
     additional_details := additional_details self;
     bot_id := bot_id self; llm_answer := llm_answer self;
     llm_link := llm_link self; channel_name := name |}.

(** [self.channel_name = mapping.get(raw, raw or "General")]; [raw] may
    be [None], which is no key of the mapping. *)
Definition set_channel_name (self : BlockKit) (raw : option pystr) : BlockKit :=
  let fallback := if truthy raw then raw else Some (str "General") in
  with_channel_name self
    match raw with
    | Some k =>
        match dict_get channel_mapping k with
        | Some label => Some label
        | None => fallback
        end
    | None => fallback
    end.

Definition extract_links (text : option pystr) : list pystr :=
  match text with
  | Some ((_ :: _) as s) => HTTP_LINK_RE_findall s
  | _ => []
  end.

Definition _link_hint_blocks (links : list pystr) : list pyval :=
  match links with
  | [] => []
  | _ =>
      let items := take 3 links in
      let bullets := join newline (map (fun u => str "• " ++ u) items) in
      [_mk_section (str "*The following link(s) might help you:*"
                    ++ newline ++ bullets)]
  end.

Definition feedback_block_kit : list pyval :=
  [_divider;
   _mk_section (str "Did you find our suggestion satisfactory?");
   PDict [(str "type", PStr (str "actions"));
          (str "elements",
           PList [_mk_button (str "👍") (str "vertex_positive")
                    (Some (str "primary")) (str "value");
                  _mk_button (str "👎") (str "vertex_negative")
                    (Some (str "danger")) (str "value")])]].

Definition thread_feedback_block_kit : list pyval :=
  [_divider;
   _mk_section (str "Did you find our suggestion satisfactory?");
   PDict [(str "type", PStr (str "actions"));
          (str "elements",
           PList [_mk_button (str "👍") (str "thread_positive")
                    (Some (str "primary")) (str "value");
                  _mk_button (str "👎") (str "thread_negative")
                    (Some (str "danger")) (str "value")])]].

Definition PREAMBLE : pystr :=
  str "Thank you for submitting a request with Cloud Tech. "
  ++ str "Based on your query, the following answer has been found:".

Definition build_answer_blocks `{Interpreter} (self : BlockKit) : result pyval :=
  if negb (truthy (llm_answer self)) then
    let blocks :=
      [_mk_section (str "Sorry, <@" ++ fmt (user_id self)
                    ++ str "> — no suggestions have been found.")] in
    Ok (PDict [(str "blocks", PList blocks)])
  else
    u ← unescape (default [] (llm_answer self));
    let answer := take 3000 u in
    let blocks := [_mk_section PREAMBLE; _mk_section answer] in
    let links := extract_links (Some answer) in
    let blocks := blocks ++ _link_hint_blocks links in
    let blocks := blocks ++ feedback_block_kit in
    Ok (PDict [(str "blocks", PList blocks)]).

(** What [feedback_update_block] hands back: the blocks it has just
    built, or the caller's own objects. *)
Inductive returned : Type :=
| Fresh (v : pyval)
| Existing (items : list val).

(** The test of the loop: a section that carries a [text] key. *)
Definition is_text_section (d : dict val) : bool :=
  py_eq_str (default VNone (dict_get d (str "type"))) (str "section")
  && dict_contains d (str "text").

(** One turn of the loop over [self.block_body], up to the [append]. *)
Definition update_item `{Interpreter} (item : val) : M unit :=
  d ← as_dict item;
  if is_text_section d then
    t ← py_getitem item (str "text");
    x ← py_getitem t (str "text");
    u ← py_unescape x;
    c ← py_slice_to 3000 u;
    t' ← py_getitem item (str "text");
    py_setitem t' (str "text") c
  else mret tt.

(** The loop; [updated] is the list being filled. *)
Fixpoint update_items `{Interpreter} (items updated : list val) : M (list val) :=
  match items with
  | [] => mret updated
  | item :: rest =>
      update_item item;;
      update_items rest (updated ++ [item])
  end.

Definition feedback_update_block `{Interpreter} (self : BlockKit) : M returned :=
  match block_body self with
  | Some ((_ :: _) as items) =>
      updated ← update_items items [];
      mret (Existing updated)
  | _ =>
      payload ← lift (build_answer_blocks self);
      match pv_getitem payload (str "blocks") with
      | Some blocks => mret (Fresh blocks)
      | None => raise KeyError
      end
  end.

Definition feedback_update_block_session `{Interpreter} (self : BlockKit) :
    M returned :=
  feedback_update_block self.

Definition self_help_link_block : list pyval :=
  [_mk_section
     (str "Thank you for your feedback. Alternatively, you may also find the "
      ++ str "following self-help documentation useful:" ++ newline
      ++ str "<https://cloudtech.apple.com/docs|CloudTech Docs>")].

Definition followup_block_kit (self : BlockKit) : list pyval :=
  let text :=
    str "Not clear yet? I can guide you one step at a time — "
    ++ str "just @mention <@" ++ fmt (bot_id self)
    ++ str "> with your follow-up questions." in
  [_mk_section text].

Definition followup_delay_message (self : BlockKit) : list pyval :=
  let text :=
    str "Did you find the suggestion satisfactory? If not, you can ask me more "
    ++ str "questions by sending me an @mention <@" ++ fmt (bot_id self)
    ++ str ">." in
  [_mk_section text].

Definition thread_block_kit `{Interpreter} (self : BlockKit) :
    result (list pyval) :=
  if negb (truthy (llm_answer self)) then
    Ok [_mk_section (str "Sorry, <@" ++ fmt (user_id self)
                     ++ str "> — no suggestions have been found.")]
  else
    u ← unescape (default [] (llm_answer self));
    let answer := take 3000 u in
    let blocks := [_mk_section answer] in
    let links := extract_links (Some answer) in
    let blocks := blocks ++ _link_hint_blocks links in
    let blocks := blocks ++ thread_feedback_block_kit in
    Ok blocks.

(** ** The ticket messages *)

Module HelpCentral.

Record t : Type := {
  ticket_number : option pystr;
  ticket_url : option pystr;
  user_id : option pystr
}.

Definition open_ticket_cta : pyval :=
  PDict [(str "blocks",
          PList [_mk_section
                   (str "Hello. If you are looking for assistance from CloudTech/CSE Support, "
                    ++ str "please click the button to open a ticket; someone will follow up with you.");
                 PDict [(str "type", PStr (str "actions"));
                        (str "elements",
                         PList [_mk_button (str "Open support request")
                                  (str "vertex_raise_ticket") None
                                  (str "value")])]])].

Definition clicked_ticket_button (self : t) : pyval :=
  PDict [(str "blocks",
          PList [_mk_section (str "<@" ++ fmt (user_id self)
                              ++ str "> clicked on *Open Support Request*")])].

Definition ticket_creation_followup : pyval :=
  PDict [(str "blocks",
          PList [PDict [(str "type", PStr (str "rich_text"));
                        (str "elements",
                         PList [PDict [(str "type", PStr (str "rich_text_section"));
                                       (str "elements",
                                        PList [PDict [(str "type", PStr (str "text"));
                                                      (str "text", PStr (str "Creating your ticket… one moment please."))]])]])]])].

Definition ticket_details (self : t) : pyval :=
  let txt :=
    if truthy (ticket_url self) then
      str "The following HelpCentral ticket has been created on your behalf "
      ++ str "<" ++ fmt (ticket_url self) ++ str "|" ++ fmt (ticket_number self)
      ++ str "> — someone from our team will follow up." ++ newline
      ++ str "See SLA details: <https://cloudtech.apple.com/docs/sla|SLA link>"
    else
      str "There seems to be a problem while raising the ticket. "
      ++ str "Please try again after some time or contact the development team." in
  PDict [(str "blocks", PList [_mk_section txt])].

Definition hc_outage : pyval :=
  PDict [(str "blocks",
          PList [_mk_section
                   (str "*Please be advised:* Due to a scheduled maintenance, "
                    ++ str "HelpCentral will be offline from Friday, 01/31/2025 8:00 PM PT "
                    ++ str "to Saturday, 02/01/2025.")])].

End HelpCentral.

(** * Vocabulary of the statements *)

(** [BlockKit()]: every field at its default. *)
Definition blank : BlockKit :=
  {| thread := None; question := None; user_id := None; block_body := None;
     channel_id := None; additional_details := None; bot_id := None;
     llm_answer := None; llm_link := None; channel_name := None |}.

(** The assignments [self.llm_answer = answer] and
    [self.block_body = body]. *)
Definition with_answer (self : BlockKit) (answer : option pystr) : BlockKit :=
  {| thread := thread self; question := question self;
     user_id := user_id self; block_body := block_body self;
     channel_id := channel_id self;
     additional_details := additional_details self;
     bot_id := bot_id self; llm_answer := answer;
     llm_link := llm_link self; channel_name := channel_name self |}.

Definition with_block_body (self : BlockKit) (body : option (list val)) : BlockKit :=
  {| thread := thread self; question := question self;
     user_id := user_id self; block_body := body;
     channel_id := channel_id self;
     additional_details := additional_details self;
     bot_id := bot_id self; llm_answer := llm_answer self;
     llm_link := llm_link self; channel_name := channel_name self |}.

(** [sub] occurs in [s]. *)
Definition occurs_in (sub s : pystr) : Prop :=
  exists pre post, s = pre ++ sub ++ post.

(** The payload wrapper [{"blocks": blocks}]. *)
Definition wrapper (blocks : list pyval) : pyval :=
  PDict [(str "blocks", PList blocks)].

(** A section block with a [mrkdwn] text, written out. *)
Definition section_block (text : pystr) : pyval :=
  PDict [(str "type", PStr (str "section"));
         (str "text", PDict [(str "type", PStr (str "mrkdwn"));
                             (str "text", PStr text)])].

(** ** When [unescape] raises *)

(** A text that holds ["&#"] followed by more decimal digits than [int]
    converts: more than 640 and more than the interpreter's limit, that
    limit being on. *)
Definition overlong `{Interpreter} (s : pystr) : Prop :=
  (0 < int_max_str_digits)%nat
  /\ exists pre digits post,
       s = pre ++ str "&#" ++ digits ++ post
       /\ Forall (fun c => is_digit c = true) digits
       /\ (640 < length digits)%nat
       /\ (int_max_str_digits < length digits)%nat.

(** The route keys and labels the specification documents. *)
Definition documented_routes : list (pystr * pystr) :=
  [(str "help-gcp-apple", str "GCP");
   (str "help-aws-apple", str "AWS");
   (str "help-oci-apple", str "OCI");
   (str "help-icloud-apple", str "iCloud");
   (str "help-alicloud", str "Alicloud");
   (str "help-linux-found", str "Linux Foundation");
   (str "help-rubix", str "Rubix");
   (str "help-spinclou", str "Spincloud")].

(** The fixed message of a failed ticket. *)
Definition TICKET_FAILURE : pystr :=
  str "There seems to be a problem while raising the ticket. Please try again after some time or contact the development team.".

(** ** The thread reply against the channel answer *)

(** The text of a block that is a section. *)
Definition section_text (b : pyval) : option pystr :=
  match pv_getitem b (str "type"), pv_getitem b (str "text") with
  | Some (PStr ty), Some t =>
      if decide (ty = str "section") then
        match pv_getitem t (str "text") with
        | Some (PStr s) => Some s
        | _ => None
        end
      else None
  | _, _ => None
  end.

(** "Omitting the preamble": a leading preamble section is dropped. *)
Definition omit_preamble (blocks : list pyval) : list pyval :=
  match blocks with
  | b :: rest =>
      if decide (section_text b = Some PREAMBLE) then rest else blocks
  | [] => []
  end.

(** "Using thread-scoped action identifiers": in every actions block the
    message-level identifiers of the buttons become the thread-level ones. *)
Definition thread_action_id (id : pystr) : pystr :=
  if decide (id = str "vertex_positive") then str "thread_positive"
  else if decide (id = str "vertex_negative") then str "thread_negative"
  else id.

Definition rescope_button (btn : pyval) : pyval :=
  match btn with
  | PDict d =>
      match dict_get d (str "action_id") with
      | Some (PStr id) =>
          PDict (dict_set d (str "action_id") (PStr (thread_action_id id)))
      | _ => btn
      end
  | _ => btn
  end.

Definition thread_scoped (b : pyval) : pyval :=
  match b with
  | PDict d =>
      match dict_get d (str "type"), dict_get d (str "elements") with
      | Some (PStr ty), Some (PList buttons) =>
          if decide (ty = str "actions")
          then PDict (dict_set d (str "elements")
                        (PList (map rescope_button buttons)))
          else b
      | _, _ => b
      end
  | _ => b
  end.

(** ** The answer with one link *)

(** The two feedback buttons, written out. *)
Definition thumbs_up_button (action_id : pystr) : pyval :=
  PDict [(str "type", PStr (str "button"));
         (str "text", PDict [(str "type", PStr (str "plain_text"));
                             (str "text", PStr (str "👍"));
                             (str "emoji", PBool true)]);
         (str "value", PStr (str "value"));
         (str "action_id", PStr action_id);
         (str "style", PStr (str "primary"))].

Definition thumbs_down_button (action_id : pystr) : pyval :=
  PDict [(str "type", PStr (str "button"));
         (str "text", PDict [(str "type", PStr (str "plain_text"));
                             (str "text", PStr (str "👎"));
                             (str "emoji", PBool true)]);
         (str "value", PStr (str "value"));
         (str "action_id", PStr action_id);
         (str "style", PStr (str "danger"))].

(** ** Link extraction *)

(** The URLs of the specification: the scheme [http] or [https] in any
    letter case, [://], and a non-empty run of characters none of which
    is white space or one of [)], [>], []]. *)
Definition same_letters (pattern s : pystr) : Prop :=
  Forall2 (fun p c => ilit p c = true) pattern s.

Definition is_url (m : pystr) : Prop :=
  exists scheme body,
    m = scheme ++ str "://" ++ body
    /\ (same_letters (str "http") scheme \/ same_letters (str "https") scheme)
    /\ body <> []
    /\ Forall (fun c => link_char c = true) body.

(** A URL starts at the first character of [s]. *)
Definition starts_url (s : pystr) : Prop :=
  exists m rest, s = m ++ rest /\ is_url m.

(** The URLs of [s] from left to right: each is the first one to start
    after the previous one has ended, and runs up to the next terminator
    or the end of [s]. *)
Inductive url_scan : pystr -> list pystr -> Prop :=
| scan_end (s : pystr) :
    (forall i, ~ starts_url (drop i s)) -> url_scan s []
| scan_hit (pre m post : pystr) (ms : list pystr) :
    (forall i, (i < length pre)%nat -> ~ starts_url (drop i (pre ++ m ++ post))) ->
    is_url m ->
    (forall c, head post = Some c -> link_char c = false) ->
    url_scan post ms ->
    url_scan (pre ++ m ++ post) (m :: ms).

(** ** Editing the caller's blocks *)

(** The dict a block of [block_body] refers to. *)
Definition block_dict (σ : store) (item : val) : option (dict val) :=
  match item with
  | VRef a =>
      match σ !! a with
      | Some (ODict d) => Some d
      | _ => None
      end
  | _ => None
  end.

(** A block the loop can edit: a dict and, when it is a section with a
    [text] key, one whose [text] is a dict holding a string [text]. *)
Definition editable (σ : store) (item : val) : Prop :=
  exists d,
    block_dict σ item = Some d
    /\ (is_text_section d = true ->
        exists t td s,
          dict_get d (str "text") = Some (VRef t)
          /\ σ !! t = Some (ODict td)
          /\ dict_get td (str "text") = Some (VStr s)).

(** The address of the text dict that the loop assigns into for [item]. *)
Definition slot_of (σ : store) (item : val) : option addr :=
  match block_dict σ item with
  | Some d =>
      if is_text_section d then
        match dict_get d (str "text") with
        | Some (VRef t) => Some t
        | _ => None
        end
      else None
  | None => None
  end.

Definition slots (σ : store) (items : list val) : list addr :=
  omap (slot_of σ) items.

(** A block on whose text [unescape] does not raise. *)
Definition decodable `{Interpreter} (σ : store) (item : val) : Prop :=
  forall t td s,
    slot_of σ item = Some t -> σ !! t = Some (ODict td) ->
    dict_get td (str "text") = Some (VStr s) ->
    ~ overlong s.

(** What the loop makes of a text dict whose string [unescape] accepts. *)
Definition retext `{Interpreter} (o : obj) : obj :=
  match o with
  | ODict td =>
      match dict_get td (str "text") with
      | Some (VStr s) =>
          match unescape s with
          | Ok u => ODict (dict_set td (str "text") (VStr (take 3000 u)))
          | Err _ => o
          end
      | _ => o
      end
  | OList _ => o
  end.

(** The weaker shape that a returning call needs: the [text] of a section
    is some dict. *)
Definition mapping_text (σ : store) (item : val) : Prop :=
  exists d,
    block_dict σ item = Some d
    /\ (is_text_section d = true ->
        exists t td,
          dict_get d (str "text") = Some (VRef t)
          /\ σ !! t = Some (ODict td)).

(** ** What a returning call has met *)

(** The assignments one turn of the loop can make. *)
Inductive edits (σ : store) : store -> Prop :=
| edits_none : edits σ σ
| edits_str (t : addr) (td : dict val) (s : pystr) :
    σ !! t = Some (ODict td) ->
    dict_contains td (str "text") = true ->
    edits σ (<[t := ODict (dict_set td (str "text") (VStr s))]> σ)
| edits_list (t : addr) (td : dict val) (l : list val) :
    σ !! t = Some (ODict td) ->
    dict_contains td (str "text") = true ->
    edits σ (<[t := ODict (dict_set td (str "text") (VRef (length σ)))]>
               (σ ++ [OList l])).

(** ** Totality and placeholders *)

(** The block structures of the rendering schema: a section with a text
    object of kind [mrkdwn] or [plain_text]; a divider; an actions block
    of buttons, each with a text object, a value, an action identifier
    and maybe a style; a rich-text block of rich-text sections of text
    leaves. *)
Definition has_type (v : pyval) (ty : pystr) : bool :=
  match pv_getitem v (str "type") with
  | Some (PStr t) => bool_decide (t = ty)
  | _ => false
  end.

Definition is_string (v : option pyval) : bool :=
  match v with
  | Some (PStr _) => true
  | _ => false
  end.

Definition wf_text (v : option pyval) : bool :=
  match v with
  | Some t =>
      (has_type t (str "mrkdwn") || has_type t (str "plain_text"))
      && is_string (pv_getitem t (str "text"))
  | None => false
  end.

Definition wf_elements (wf : pyval -> bool) (v : option pyval) : bool :=
  match v with
  | Some (PList l) => forallb wf l
  | _ => false
  end.

Definition wf_button (b : pyval) : bool :=
  has_type b (str "button")
  && wf_text (pv_getitem b (str "text"))
  && is_string (pv_getitem b (str "value"))
  && is_string (pv_getitem b (str "action_id"))
  && match pv_getitem b (str "style") with
     | Some style => is_string (Some style)
     | None => true
     end.

Definition wf_rich_text_leaf (e : pyval) : bool :=
  has_type e (str "text") && is_string (pv_getitem e (str "text")).

Definition wf_rich_text_section (e : pyval) : bool :=
  has_type e (str "rich_text_section")
  && wf_elements wf_rich_text_leaf (pv_getitem e (str "elements")).

Definition wf_block (b : pyval) : bool :=
  (has_type b (str "section") && wf_text (pv_getitem b (str "text")))
  || has_type b (str "divider")
  || (has_type b (str "actions")
      && wf_elements wf_button (pv_getitem b (str "elements")))
  || (has_type b (str "rich_text")
      && wf_elements wf_rich_text_section (pv_getitem b (str "elements"))).

Definition wf_blocks (blocks : list pyval) : bool := forallb wf_block blocks.

Definition wf_payload (p : pyval) : bool :=
  wf_elements wf_block (pv_getitem p (str "blocks")).

(** ** Sample inputs *)

(** A builder for user [U123] whose answer is empty. *)
Definition U123 : BlockKit :=
  {| thread := None; question := None; user_id := Some (str "U123");
     block_body := None; channel_id := None; additional_details := None;
     bot_id := None; llm_answer := Some []; llm_link := None;
     channel_name := None |}.

(** A ticket that was created, and one that was not. *)
Definition ticket_4711 : HelpCentral.t :=
  {| HelpCentral.ticket_number := Some (str "HC-4711");
     HelpCentral.ticket_url := Some (str "https://helpcentral.example/t/4711");
     HelpCentral.user_id := None |}.

Definition ticket_lost : HelpCentral.t :=
  {| HelpCentral.ticket_number := Some (str "HC-4711"); HelpCentral.ticket_url := None;
     HelpCentral.user_id := None |}.

(** An answer with one link. *)
Definition one_link_answer : BlockKit :=
  with_answer blank (Some (str "See https://cloudtech.apple.com/docs/vm for details")).

(** An answer whose one URL has an encoded space right after [http://]. *)
Definition encoded_space_answer : pystr := str "See http://&#32;example.com/docs".

(** A message of two blocks, a section and a divider, as the store holds
    it: the section at 0, its text dict at 1, the divider at 2. *)
Definition posted_message : store :=
  [ODict [(str "type", VStr (str "section")); (str "text", VRef 1)];
   ODict [(str "type", VStr (str "mrkdwn"));
          (str "text", VStr (str "1 &#60; 2 &#38; 3 &#62; 2"))];
   ODict [(str "type", VStr (str "divider"))]].

(** A section whose text dict holds [None] for its [text]. *)
Definition null_text_message : store :=
  [ODict [(str "type", VStr (str "section")); (str "text", VRef 1)];
   ODict [(str "type", VStr (str "mrkdwn")); (str "text", VNone)]].

(** A section whose text, unescaped once, is again a character
    reference. *)
Definition escaped_twice_message : store :=
  [ODict [(str "type", VStr (str "section")); (str "text", VRef 1)];
   ODict [(str "type", VStr (str "mrkdwn"));
          (str "text", VStr (str "&#38;#65;"))]].

(** A section whose [text] is a plain string. *)
Definition plain_text_message : store :=
  [ODict [(str "type", VStr (str "section"));
          (str "text", VStr (str "Hello"))]].

(** A section whose text dict has no [text] key. *)
Definition untexted_message : store :=
  [ODict [(str "type", VStr (str "section")); (str "text", VRef 1)];
   ODict [(str "type", VStr (str "mrkdwn"))]].

(** 3001 characters without an ampersand. *)
Definition long_plain_answer : pystr := replicate 3001 (ch "x").

(** 601 copies of a numeric character reference: 3005 characters. *)
Definition charref_answer : pystr := mjoin (replicate 601 (str "&#65;")).

(** A numeric character reference of 4301 digits: 4303 characters. *)
Definition overlong_answer : pystr := str "&#" ++ replicate 4301 (ch "1").

(** ** Vocabulary of the further properties *)

(** [s.split(c)] for a single character [c]. *)
Fixpoint split_on (c : char) (s : pystr) : list pystr :=
  match s with
  | [] => [[]]
  | x :: rest =>
      if x =? c then [] :: split_on c rest
      else
        match split_on c rest with
        | l :: ls => (x :: l) :: ls
        | [] => [[x]]
        end
  end.

(** The header line of the link hint. *)
Definition LINK_HINT_HEADER : pystr :=
  str "*The following link(s) might help you:*".

(** A URL of 3000 characters. *)
Definition long_url : pystr := str "http://" ++ replicate 2993 (ch "a").

(** A bullet line of the link hint. *)
Definition bullet (u : pystr) : pystr := str "• " ++ u.

(** A block that the loop has nothing to do on: the text it would assign
    into holds no ampersand and at most 3000 characters. *)
Definition settled (σ : store) (item : val) : Prop :=
  forall t td s,
    slot_of σ item = Some t -> σ !! t = Some (ODict td) ->
    dict_get td (str "text") = Some (VStr s) ->
    (ch "&" ∉ s) /\ (length s <= 3000)%nat.

(** A message whose two sections share one text dict (at 1), with a
    divider between them. *)
Definition shared_text_message : store :=
  [ODict [(str "type", VStr (str "section")); (str "text", VRef 1)];
   ODict [(str "type", VStr (str "mrkdwn"));
          (str "text", VStr (str "1 < 2"))];
   ODict [(str "type", VStr (str "divider"))];
   ODict [(str "type", VStr (str "section")); (str "text", VRef 1)]].

(** A section whose text, unescaped once, holds no ampersand. *)
Definition escaped_once_message : store :=
  [ODict [(str "type", VStr (str "section")); (str "text", VRef 1)];
   ODict [(str "type", VStr (str "mrkdwn"));
          (str "text", VStr (str "1 &#60; 2"))]].

(** [posted_message] followed by a section whose [text] is a plain
    string (at 3). *)
Definition half_good_message : store :=
  posted_message
  ++ [ODict [(str "type", VStr (str "section"));
             (str "text", VStr (str "Hello"))]].

(** * Properties *)

(** ** Route labels *)

Lemma channel_mapping_cases (k label : pystr) :
  dict_get channel_mapping k = Some label ->
  (k, label) ∈ documented_routes \/ label = k.
Proof.
  unfold channel_mapping. cbn [dict_get].
  repeat (case_decide as E;
          [ intros [= <-]; rewrite <- E;
            first [ right; vm_compute; reflexivity
                  | left; vm_compute; repeat first [ left | right ] ]
          | clear E ]);
    try discriminate.
  all: try (repeat first [ apply list_elem_of_here | apply list_elem_of_further ]).
Qed.

Lemma documented_routes_mapped (k label : pystr) :
  (k, label) ∈ documented_routes -> dict_get channel_mapping k = Some label.
Proof.
  unfold documented_routes. intros Hin.
  repeat (apply elem_of_cons in Hin as [[= -> ->] | Hin];
          [ vm_compute; reflexivity | ]).
  by apply not_elem_of_nil in Hin.
Qed.

(** C1 (as amended): a documented route key gets its documented label; any
    other non-empty key is kept as it is; only an empty or absent key
    gives ["General"]. *)
Theorem set_channel_name_label (self : BlockKit) (raw : option pystr) :
  (forall k label, raw = Some k -> (k, label) ∈ documented_routes ->
     channel_name (set_channel_name self raw) = Some label)
  /\ (forall k, raw = Some k -> k <> [] -> k ∉ documented_routes.*1 ->
        channel_name (set_channel_name self raw) = Some k)
  /\ (raw = None \/ raw = Some [] ->
        channel_name (set_channel_name self raw) = Some (str "General")).
Proof.
  unfold set_channel_name. cbn [channel_name with_channel_name].
  split; [ | split ].
  - intros k label -> Hin.
    by rewrite (documented_routes_mapped _ _ Hin).
  - intros k -> Hne Hnot.
    destruct (dict_get channel_mapping k) as [label|] eqn:E.
    + destruct (channel_mapping_cases _ _ E) as [Hin | ->]; [ | reflexivity ].
      exfalso. apply Hnot. apply list_elem_of_fmap. by exists (k, label).
    + destruct k; [ by destruct Hne | reflexivity ].
  - intros [-> | ->]; [ reflexivity | ].
    change (dict_get channel_mapping []) with (@None pystr). reflexivity.
Qed.

(** C1, a concrete instance: the documented key of the GCP route, a key
    outside the table, and the empty key. *)
Lemma set_channel_name_label_witness :
  channel_name (set_channel_name blank (Some (str "help-gcp-apple")))
    = Some (str "GCP")
  /\ channel_name (set_channel_name blank (Some (str "help-azure-apple")))
    = Some (str "help-azure-apple")
  /\ channel_name (set_channel_name blank (Some [])) = Some (str "General").
Proof.
  split; [ | split ].
  - apply (proj1 (set_channel_name_label blank _) (str "help-gcp-apple"));
      [ reflexivity | vm_compute; left ].
  - apply (proj1 (proj2 (set_channel_name_label blank _)));
      [ reflexivity | vm_compute; discriminate | ].
    vm_compute. intros Hin.
    repeat (apply elem_of_cons in Hin as [Hin | Hin]; [ discriminate | ]).
    by apply not_elem_of_nil in Hin.
  - apply (proj2 (proj2 (set_channel_name_label blank _))).
    right. reflexivity.
Defined.

(** C1 as stated fails: a key outside the table does not become
    ["General"], it is stored unchanged. *)
Lemma set_channel_name_unknown_not_general :
  dict_get channel_mapping (str "help-azure-apple") = None
  /\ channel_name (set_channel_name blank (Some (str "help-azure-apple")))
     = Some (str "help-azure-apple")
  /\ channel_name (set_channel_name blank (Some (str "help-azure-apple")))
     <> Some (str "General").
Proof. vm_compute. repeat split; discriminate. Qed.

(** ** The two shapes of an answer *)

Lemma truthy_false (x : option pystr) :
  x = None \/ x = Some [] -> truthy x = false.
Proof. by intros [-> | ->]. Qed.

Lemma truthy_true (x : option pystr) (s : pystr) :
  x = Some s -> s <> [] -> truthy x = true.
Proof. intros -> Hne. destruct s; [ by destruct Hne | reflexivity ]. Qed.

Lemma build_answer_blocks_empty `{Interpreter} (self : BlockKit) :
  truthy (llm_answer self) = false ->
  build_answer_blocks self
  = Ok (wrapper [_mk_section (str "Sorry, <@" ++ fmt (user_id self)
                              ++ str "> — no suggestions have been found.")]).
Proof. intros Hf. unfold build_answer_blocks. rewrite Hf. reflexivity. Qed.

Lemma build_answer_blocks_answer `{Interpreter} (self : BlockKit) (s u : pystr) :
  llm_answer self = Some s -> s <> [] -> unescape s = Ok u ->
  build_answer_blocks self
  = Ok (wrapper (([_mk_section PREAMBLE; _mk_section (take 3000 u)]
                  ++ _link_hint_blocks (extract_links (Some (take 3000 u))))
                 ++ feedback_block_kit)).
Proof.
  intros Hs Hne Hu. unfold build_answer_blocks.
  rewrite (truthy_true _ _ Hs Hne), Hs.
  change (default [] (Some s)) with s. cbn [negb]. rewrite Hu.
  reflexivity.
Qed.

Lemma build_answer_blocks_raises `{Interpreter} (self : BlockKit) (s : pystr)
    (e : exn) :
  llm_answer self = Some s -> s <> [] -> unescape s = Err e ->
  build_answer_blocks self = Err e.
Proof.
  intros Hs Hne Hu. unfold build_answer_blocks.
  rewrite (truthy_true _ _ Hs Hne), Hs.
  change (default [] (Some s)) with s. cbn [negb]. rewrite Hu.
  reflexivity.
Qed.

Lemma thread_block_kit_empty `{Interpreter} (self : BlockKit) :
  truthy (llm_answer self) = false ->
  thread_block_kit self
  = Ok [_mk_section (str "Sorry, <@" ++ fmt (user_id self)
                     ++ str "> — no suggestions have been found.")].
Proof. intros Hf. unfold thread_block_kit. rewrite Hf. reflexivity. Qed.

Lemma thread_block_kit_answer `{Interpreter} (self : BlockKit) (s u : pystr) :
  llm_answer self = Some s -> s <> [] -> unescape s = Ok u ->
  thread_block_kit self
  = Ok (([_mk_section (take 3000 u)]
         ++ _link_hint_blocks (extract_links (Some (take 3000 u))))
        ++ thread_feedback_block_kit).
Proof.
  intros Hs Hne Hu. unfold thread_block_kit.
  rewrite (truthy_true _ _ Hs Hne), Hs.
  change (default [] (Some s)) with s. cbn [negb]. rewrite Hu.
  reflexivity.
Qed.

Lemma thread_block_kit_raises `{Interpreter} (self : BlockKit) (s : pystr)
    (e : exn) :
  llm_answer self = Some s -> s <> [] -> unescape s = Err e ->
  thread_block_kit self = Err e.
Proof.
  intros Hs Hne Hu. unfold thread_block_kit.
  rewrite (truthy_true _ _ Hs Hne), Hs.
  change (default [] (Some s)) with s. cbn [negb]. rewrite Hu.
  reflexivity.
Qed.

Lemma answer_cases (x : option pystr) :
  (x = None \/ x = Some []) \/ (exists s, x = Some s /\ s <> []).
Proof. destruct x as [[|c s]|]; eauto. Qed.

(** ** The answer without suggestions *)

(** C3: with an empty or absent answer, [build_answer_blocks] returns the
    wrapper around exactly one block, the section with the no-suggestion
    message that mentions the user id. *)
Theorem build_answer_blocks_no_answer `{Interpreter} (self : BlockKit) :
  llm_answer self = None \/ llm_answer self = Some [] ->
  build_answer_blocks self
  = Ok (wrapper [_mk_section (str "Sorry, <@" ++ fmt (user_id self)
                              ++ str "> — no suggestions have been found.")])
  /\ exists payload,
       build_answer_blocks self = Ok payload
       /\ pv_getitem payload (str "blocks")
          = Some (PList [PDict [(str "type", PStr (str "section"));
                                (str "text",
                                 PDict [(str "type", PStr (str "mrkdwn"));
                                        (str "text",
                                         PStr (str "Sorry, <@" ++ fmt (user_id self)
                                               ++ str "> — no suggestions have been found."))])]]).
Proof.
  intros Hnone%truthy_false.
  rewrite (build_answer_blocks_empty _ Hnone).
  split; [ reflexivity | eexists; split; reflexivity ].
Qed.

(** C3 at [U123]. *)
Lemma build_answer_blocks_no_answer_witness :
  @build_answer_blocks cpython U123
  = Ok (wrapper [_mk_section
                   (str "Sorry, <@U123> — no suggestions have been found.")]).
Proof.
  refine (eq_trans (proj1 (@build_answer_blocks_no_answer cpython U123 _)) _).
  - right. reflexivity.
  - vm_compute. reflexivity.
Defined.

(** ** The ticket outcome *)

(** C7: with a ticket URL the payload is one section whose text holds the
    link made of that URL and the ticket number ([None] for an absent
    number), and the static SLA link; without one (absent or empty) it is
    one section with the fixed failure message, whatever the ticket
    number. *)
Theorem ticket_details_outcome (self : HelpCentral.t) :
  (forall url, HelpCentral.ticket_url self = Some url -> url <> [] ->
     exists number txt,
       number = match HelpCentral.ticket_number self with
                | Some n => n
                | None => str "None"
                end
       /\ HelpCentral.ticket_details self
          = PDict [(str "blocks",
                    PList [PDict [(str "type", PStr (str "section"));
                                  (str "text",
                                   PDict [(str "type", PStr (str "mrkdwn"));
                                          (str "text", PStr txt)])]])]
       /\ txt
          = str "The following HelpCentral ticket has been created on your behalf <"
            ++ url ++ str "|" ++ number
            ++ str "> — someone from our team will follow up." ++ [10]
            ++ str "See SLA details: <https://cloudtech.apple.com/docs/sla|SLA link>"
       /\ occurs_in (str "<" ++ url ++ str "|" ++ number ++ str ">") txt
       /\ occurs_in (str "<https://cloudtech.apple.com/docs/sla|SLA link>") txt)
  /\ (HelpCentral.ticket_url self = None \/ HelpCentral.ticket_url self = Some [] ->
        HelpCentral.ticket_details self
        = PDict [(str "blocks",
                  PList [PDict [(str "type", PStr (str "section"));
                                (str "text",
                                 PDict [(str "type", PStr (str "mrkdwn"));
                                        (str "text", PStr TICKET_FAILURE)])]])]).
Proof.
  unfold HelpCentral.ticket_details. split.
  - intros url Hurl Hne. rewrite Hurl.
    destruct url as [|c url]; [ by destruct Hne | ]. cbn [truthy fmt].
    change (fmt (HelpCentral.ticket_number self))
      with (match HelpCentral.ticket_number self with
            | Some n => n
            | None => str "None"
            end).
    generalize (match HelpCentral.ticket_number self with
                | Some n => n
                | None => str "None"
                end).
    intros number. exists number. eexists.
    split; [ reflexivity | split; [ reflexivity | ] ].
    change newline with [10].
    replace (str "The following HelpCentral ticket has been created on your behalf <")
      with (str "The following HelpCentral ticket has been created on your behalf "
            ++ str "<") by (vm_compute; reflexivity).
    replace (str "> — someone from our team will follow up.")
      with (str ">" ++ str " — someone from our team will follow up.")
      by (vm_compute; reflexivity).
    replace (str "See SLA details: <https://cloudtech.apple.com/docs/sla|SLA link>")
      with (str "See SLA details: "
            ++ str "<https://cloudtech.apple.com/docs/sla|SLA link>")
      by (vm_compute; reflexivity).
    split; [ by rewrite <- !app_assoc | split ].
    + exists (str "The following HelpCentral ticket has been created on your behalf "),
        (str " — someone from our team will follow up." ++ [10]
         ++ str "See SLA details: "
         ++ str "<https://cloudtech.apple.com/docs/sla|SLA link>").
      rewrite <- !app_assoc. reflexivity.
    + exists (str "The following HelpCentral ticket has been created on your behalf "
              ++ str "<" ++ (c :: url) ++ str "|" ++ number
              ++ str ">" ++ str " — someone from our team will follow up."
              ++ [10] ++ str "See SLA details: "), [].
      rewrite app_nil_r, <- !app_assoc. reflexivity.
  - intros Hnone.
    assert (truthy (HelpCentral.ticket_url self) = false) as ->
      by (destruct Hnone as [-> | ->]; reflexivity).
    vm_compute. reflexivity.
Qed.

(** C7 at a created ticket and at a failed one. *)
Lemma ticket_details_outcome_witness :
  (exists txt,
     HelpCentral.ticket_details ticket_4711
     = PDict [(str "blocks",
               PList [PDict [(str "type", PStr (str "section"));
                             (str "text",
                              PDict [(str "type", PStr (str "mrkdwn"));
                                     (str "text", PStr txt)])]])]
     /\ occurs_in (str "<https://helpcentral.example/t/4711|HC-4711>") txt
     /\ occurs_in (str "<https://cloudtech.apple.com/docs/sla|SLA link>") txt)
  /\ HelpCentral.ticket_details ticket_lost
     = PDict [(str "blocks",
               PList [PDict [(str "type", PStr (str "section"));
                             (str "text",
                              PDict [(str "type", PStr (str "mrkdwn"));
                                     (str "text", PStr TICKET_FAILURE)])]])].
Proof.
  split.
  - destruct (proj1 (ticket_details_outcome ticket_4711)
                (str "https://helpcentral.example/t/4711"))
      as (number & txt & Hnumber & Hpayload & _ & Hlink & Hsla);
      [ reflexivity | vm_compute; discriminate | ].
    exists txt. rewrite Hnumber in Hlink.
    split; [ exact Hpayload | split; [ exact Hlink | exact Hsla ] ].
  - apply (proj2 (ticket_details_outcome ticket_lost)). left. reflexivity.
Defined.

(** ** The thread reply against the channel answer *)

Lemma section_text_mk_section (t : pystr) : section_text (_mk_section t) = Some t.
Proof. reflexivity. Qed.

Lemma thread_scoped_mk_section (t : pystr) :
  thread_scoped (_mk_section t) = _mk_section t.
Proof. reflexivity. Qed.

Lemma thread_scoped_link_hint (links : list pystr) :
  map thread_scoped (_link_hint_blocks links) = _link_hint_blocks links.
Proof. by destruct links. Qed.

Lemma thread_scoped_feedback :
  map thread_scoped feedback_block_kit = thread_feedback_block_kit.
Proof. vm_compute. reflexivity. Qed.

Lemma no_suggestion_not_preamble (x : pystr) :
  str "Sorry, <@" ++ x <> PREAMBLE.
Proof.
  assert (head (str "Sorry, <@" ++ x) = Some (ch "S")) as Hl
    by (vm_compute; reflexivity).
  assert (head PREAMBLE = Some (ch "T")) as Hr by (vm_compute; reflexivity).
  intros E. rewrite E, Hr in Hl. discriminate Hl.
Qed.

Lemma thread_view_empty (x : pystr) :
  map thread_scoped (omit_preamble [_mk_section (str "Sorry, <@" ++ x)])
  = [_mk_section (str "Sorry, <@" ++ x)].
Proof.
  cbn [omit_preamble]. rewrite section_text_mk_section.
  rewrite decide_False.
  - cbn [map]. rewrite thread_scoped_mk_section. reflexivity.
  - intros E%(inj Some). exact (no_suggestion_not_preamble _ E).
Qed.

Lemma thread_view_answer (a : pystr) (links : list pystr) :
  map thread_scoped
    (omit_preamble (([_mk_section PREAMBLE; _mk_section a]
                     ++ _link_hint_blocks links) ++ feedback_block_kit))
  = ([_mk_section a] ++ _link_hint_blocks links) ++ thread_feedback_block_kit.
Proof.
  cbn [app omit_preamble]. rewrite section_text_mk_section.
  rewrite decide_True by reflexivity.
  rewrite map_cons, thread_scoped_mk_section, map_app.
  rewrite thread_scoped_link_hint, thread_scoped_feedback. reflexivity.
Qed.

(** C5: the thread reply is the channel answer's block sequence without
    its preamble and with the thread-scoped action identifiers; it comes
    bare, while the channel answer comes inside the wrapper.  Where the
    channel answer raises, the thread reply raises the same. *)
Theorem thread_block_kit_refines `{Interpreter} (self : BlockKit) :
  match build_answer_blocks self with
  | Ok payload =>
      exists blocks,
        payload = wrapper blocks
        /\ thread_block_kit self
           = Ok (map thread_scoped (omit_preamble blocks))
  | Err e => thread_block_kit self = Err e
  end.
Proof.
  destruct (answer_cases (llm_answer self)) as [Hnone | (s & Hs & Hne)].
  - apply truthy_false in Hnone.
    rewrite (build_answer_blocks_empty _ Hnone).
    rewrite (thread_block_kit_empty _ Hnone).
    eexists. split; [ reflexivity | ].
    apply f_equal. symmetry. apply thread_view_empty.
  - destruct (unescape s) as [u|e] eqn:Hu.
    + rewrite (build_answer_blocks_answer _ _ _ Hs Hne Hu).
      rewrite (thread_block_kit_answer _ _ _ Hs Hne Hu).
      generalize (take 3000 u). intros a.
      eexists. split; [ reflexivity | ].
      apply f_equal. symmetry. apply thread_view_answer.
    + rewrite (build_answer_blocks_raises _ _ _ Hs Hne Hu).
      apply (thread_block_kit_raises _ _ _ Hs Hne Hu).
Qed.

(** ** The answer with one link *)

(** C4 (as amended): when [unescape] returns on the answer and the result,
    cut to 3000 characters, holds exactly one URL, the blocks are, in
    this order, the preamble, the answer, the link hint listing that URL,
    a divider, the feedback prompt, and the actions block with the two
    buttons [vertex_positive] and [vertex_negative]. *)
Theorem build_answer_blocks_one_link `{Interpreter} (self : BlockKit)
    (s u m : pystr) :
  llm_answer self = Some s -> s <> [] -> unescape s = Ok u ->
  extract_links (Some (take 3000 u)) = [m] ->
  build_answer_blocks self
  = Ok (PDict
          [(str "blocks",
            PList
              [section_block
                 (str "Thank you for submitting a request with Cloud Tech. Based on your query, the following answer has been found:");
               section_block (take 3000 u);
               section_block (str "*The following link(s) might help you:*"
                              ++ [10] ++ str "• " ++ m);
               PDict [(str "type", PStr (str "divider"))];
               section_block (str "Did you find our suggestion satisfactory?");
               PDict [(str "type", PStr (str "actions"));
                      (str "elements",
                       PList [thumbs_up_button (str "vertex_positive");
                              thumbs_down_button (str "vertex_negative")])]])]).
Proof.
  intros Hs Hne Hu Hlinks.
  rewrite (build_answer_blocks_answer _ _ _ Hs Hne Hu), Hlinks.
  generalize (take 3000 u). intros a.
  vm_compute. reflexivity.
Qed.

(** C4 at [one_link_answer]. *)
Lemma build_answer_blocks_one_link_witness :
  exists rest,
    @build_answer_blocks cpython one_link_answer
    = Ok (wrapper
            (section_block PREAMBLE
             :: section_block (str "See https://cloudtech.apple.com/docs/vm for details")
             :: section_block (str "*The following link(s) might help you:*"
                               ++ [10] ++ str "• https://cloudtech.apple.com/docs/vm")
             :: rest))
    /\ length rest = 3%nat.
Proof.
  eexists. split.
  - refine (eq_trans
              (@build_answer_blocks_one_link cpython one_link_answer
                 (str "See https://cloudtech.apple.com/docs/vm for details")
                 (str "See https://cloudtech.apple.com/docs/vm for details")
                 (str "https://cloudtech.apple.com/docs/vm") _ _ _ _) _).
    + reflexivity.
    + vm_compute. discriminate.
    + vm_compute. reflexivity.
    + vm_compute. reflexivity.
    + vm_compute. reflexivity.
  - reflexivity.
Defined.

(** C4 as stated fails: the links are looked for in the unescaped answer.
    Here the answer text holds exactly one URL, with an encoded space
    inside; once unescaped nothing follows [http://], no link is found and
    no hint is emitted: five blocks, not six. *)
Lemma one_url_without_link_hint :
  extract_links (Some encoded_space_answer) = [str "http://&#32;example.com/docs"]
  /\ forall python : Interpreter,
       @build_answer_blocks python (with_answer blank (Some encoded_space_answer))
       = Ok (wrapper
               [section_block PREAMBLE;
                section_block (str "See http:// example.com/docs");
                PDict [(str "type", PStr (str "divider"))];
                section_block (str "Did you find our suggestion satisfactory?");
                PDict [(str "type", PStr (str "actions"));
                       (str "elements",
                        PList [thumbs_up_button (str "vertex_positive");
                               thumbs_down_button (str "vertex_negative")])]]).
Proof. split; [ | intros python ]; vm_compute; reflexivity. Qed.

(** ** Link extraction *)

Lemma span_spec (p : char -> bool) (s a b : pystr) :
  span p s = (a, b) ->
  s = a ++ b /\ Forall (fun c => p c = true) a
  /\ (forall c, head b = Some c -> p c = false).
Proof.
  revert a b. induction s as [|c s IH]; intros a b; cbn.
  - intros [= <- <-]. by repeat split.
  - destruct (p c) eqn:Hc.
    + destruct (span p s) as [a' b'] eqn:E. intros [= <- <-].
      destruct (IH _ _ eq_refl) as (-> & Ha & Hb).
      repeat split; [ by constructor | done ].
    + intros [= <- <-]. repeat split; [ constructor | ].
      cbn. by intros ? [= <-].
Qed.

Lemma span_app (p : char -> bool) (a b : pystr) :
  Forall (fun c => p c = true) a ->
  (forall c, head b = Some c -> p c = false) ->
  span p (a ++ b) = (a, b).
Proof.
  intros Ha Hb. induction Ha as [|c a Hc _ IH].
  - destruct b as [|c b]; [ reflexivity | ].
    cbn. by rewrite (Hb c eq_refl).
  - cbn. by rewrite Hc, IH.
Qed.

Lemma span_nonempty (p : char -> bool) (c : char) (s : pystr) :
  p c = true -> fst (span p (c :: s)) <> [].
Proof. intros Hc. cbn. rewrite Hc. by destruct (span p s). Qed.

Lemma strip_prefix_spec (p s b : pystr) :
  strip_prefix p s = Some b <-> s = p ++ b.
Proof.
  revert s. induction p as [|x p IH]; intros s; cbn.
  - split; [ by intros [= ->] | by intros -> ].
  - destruct s as [|c s]; [ done | ].
    destruct (N.eqb_spec c x) as [-> | Hne].
    + rewrite IH. split; [ by intros -> | by intros [= ->] ].
    + split; [ done | intros [= -> _]; done ].
Qed.

Lemma same_letters_http (scheme : pystr) :
  same_letters (str "http") scheme <->
  exists h t1 t2 p,
    scheme = [h; t1; t2; p]
    /\ ilit (ch "h") h && ilit (ch "t") t1 && ilit (ch "t") t2
       && ilit (ch "p") p = true.
Proof.
  unfold same_letters. change (str "http") with [ch "h"; ch "t"; ch "t"; ch "p"].
  split.
  - intros H.
    repeat match goal with
           | H : Forall2 _ (_ :: _) _ |- _ =>
               apply Forall2_cons_inv_l in H as (? & ? & ? & H & ->)
           | H : Forall2 _ [] _ |- _ => apply Forall2_nil_inv_l in H as ->
           end.
    do 4 eexists. split; [ reflexivity | ].
    repeat match goal with E : ilit _ _ = true |- _ => rewrite E; clear E end.
    reflexivity.
  - intros (h & t1 & t2 & p & -> & H).
    apply andb_prop in H as [H Hp]. apply andb_prop in H as [H Ht2].
    apply andb_prop in H as [Hh Ht1].
    repeat first [ assumption | constructor ].
Qed.

Lemma same_letters_https (scheme : pystr) :
  same_letters (str "https") scheme <->
  exists h t1 t2 p s,
    scheme = [h; t1; t2; p; s]
    /\ ilit (ch "h") h && ilit (ch "t") t1 && ilit (ch "t") t2
       && ilit (ch "p") p = true
    /\ ilit (ch "s") s = true.
Proof.
  unfold same_letters.
  change (str "https") with [ch "h"; ch "t"; ch "t"; ch "p"; ch "s"].
  split.
  - intros H.
    repeat match goal with
           | H : Forall2 _ (_ :: _) _ |- _ =>
               apply Forall2_cons_inv_l in H as (? & ? & ? & H & ->)
           | H : Forall2 _ [] _ |- _ => apply Forall2_nil_inv_l in H as ->
           end.
    do 5 eexists. split; [ reflexivity | ].
    repeat match goal with E : ilit _ _ = true |- _ => rewrite E; clear E end.
    split; reflexivity.
  - intros (h & t1 & t2 & p & s & -> & H & Hs).
    apply andb_prop in H as [H Hp]. apply andb_prop in H as [H Ht2].
    apply andb_prop in H as [Hh Ht1].
    repeat first [ assumption | constructor ].
Qed.

Lemma match_link_scheme (scheme tail : pystr) :
  same_letters (str "http") scheme \/ same_letters (str "https") scheme ->
  match_link (scheme ++ str "://" ++ tail)
  = match fst (span link_char tail) with
    | [] => None
    | m => Some (scheme ++ str "://" ++ m)
    end.
Proof.
  intros [H | H].
  - apply same_letters_http in H as (h & t1 & t2 & p & -> & Hc).
    change (str "://") with [ch ":"; ch "/"; ch "/"].
    cbn [app]. unfold match_link. rewrite Hc.
    change (ilit (ch "s") (ch ":")) with false. cbv iota beta.
    change (strip_prefix (str "://") (ch ":" :: ch "/" :: ch "/" :: tail))
      with (Some tail).
    cbv beta iota. destruct (fst (span link_char tail)); reflexivity.
  - apply same_letters_https in H as (h & t1 & t2 & p & s & -> & Hc & Hs).
    change (str "://") with [ch ":"; ch "/"; ch "/"].
    cbn [app]. unfold match_link. rewrite Hc, Hs. cbv iota beta.
    change (strip_prefix (str "://") (ch ":" :: ch "/" :: ch "/" :: tail))
      with (Some tail).
    cbv beta iota. destruct (fst (span link_char tail)); reflexivity.
Qed.

Lemma match_link_sound (s m : pystr) :
  match_link s = Some m ->
  exists post,
    s = m ++ post /\ is_url m
    /\ (forall c, head post = Some c -> link_char c = false).
Proof.
  unfold match_link.
  destruct s as [|h [|t1 [|t2 [|p rest]]]]; try discriminate.
  destruct (ilit (ch "h") h && ilit (ch "t") t1 && ilit (ch "t") t2
            && ilit (ch "p") p) eqn:Hc; [ | discriminate ].
  assert (forall s_opt rest1,
            rest = s_opt ++ rest1 ->
            same_letters (str "http") ([h; t1; t2; p] ++ s_opt)
            \/ same_letters (str "https") ([h; t1; t2; p] ++ s_opt) ->
            match strip_prefix (str "://") rest1 with
            | Some body =>
                match fst (span link_char body) with
                | [] => None
                | m => Some ([h; t1; t2; p] ++ s_opt ++ str "://" ++ m)
                end
            | None => None
            end = Some m ->
            exists post,
              h :: t1 :: t2 :: p :: rest = m ++ post /\ is_url m
              /\ (forall c, head post = Some c -> link_char c = false)) as Hgo.
  { intros s_opt rest1 -> Hscheme.
    destruct (strip_prefix (str "://") rest1) as [body|] eqn:Hp; [ | done ].
    apply strip_prefix_spec in Hp as ->.
    destruct (span link_char body) as [a b] eqn:Hspan. cbn [fst].
    destruct (span_spec _ _ _ _ Hspan) as (-> & Ha & Hb).
    destruct a as [|c a]; [ done | ]. intros [= <-].
    exists b. split; [ | split; [ | done ] ].
    - cbn [app]. by rewrite <- !app_assoc.
    - exists ([h; t1; t2; p] ++ s_opt), (c :: a).
      split; [ by rewrite <- !app_assoc | done ]. }
  destruct rest as [|c r].
  - apply (Hgo [] []); [ done | ].
    left. apply same_letters_http. by do 4 eexists.
  - destruct (ilit (ch "s") c) eqn:Hs.
    + apply (Hgo [c] r); [ done | ].
      right. apply same_letters_https. by do 5 eexists.
    + apply (Hgo [] (c :: r)); [ done | ].
      left. apply same_letters_http. by do 4 eexists.
Qed.

Lemma match_link_unique (m post : pystr) :
  is_url m ->
  (forall c, head post = Some c -> link_char c = false) ->
  match_link (m ++ post) = Some m.
Proof.
  intros (scheme & body & -> & Hscheme & Hne & Hbody) Hpost.
  rewrite <- !app_assoc, match_link_scheme by done.
  rewrite span_app by done. cbn [fst]. by destruct body.
Qed.

Lemma match_link_complete (s : pystr) :
  starts_url s -> match_link s <> None.
Proof.
  intros (m & rest & -> & scheme & body & -> & Hscheme & Hne & Hbody).
  rewrite <- !app_assoc, match_link_scheme by done.
  destruct body as [|c body]; [ done | ].
  apply Forall_cons in Hbody as [Hc _].
  pose proof (span_nonempty link_char c (body ++ rest) Hc) as Hspan.
  cbn [app]. by destruct (fst (span link_char (c :: body ++ rest))).
Qed.

Lemma is_url_nonempty (m : pystr) : is_url m -> m <> [].
Proof.
  intros (scheme & body & -> & _ & Hne & _) E.
  apply app_eq_nil in E as [_ E]. apply app_eq_nil in E as [_ E]. done.
Qed.

(** The scanner's skip counter is a way of dropping characters. *)
Lemma findall_from_drop (k : nat) (s : pystr) :
  findall_from k s = findall_from 0 (drop k s).
Proof.
  revert k. induction s as [|c s IH]; intros [|k]; try reflexivity.
  cbn [findall_from drop]. apply IH.
Qed.

Lemma findall_hit (m post : pystr) :
  match_link (m ++ post) = Some m -> m <> [] ->
  HTTP_LINK_RE_findall (m ++ post) = m :: HTTP_LINK_RE_findall post.
Proof.
  intros Hm Hne. unfold HTTP_LINK_RE_findall.
  destruct m as [|c m]; [ done | ].
  cbn [app findall_from]. cbn [app] in Hm. rewrite Hm.
  f_equal. rewrite findall_from_drop. cbn [length pred].
  by rewrite drop_app_length.
Qed.

Lemma findall_miss (c : char) (s : pystr) :
  match_link (c :: s) = None ->
  HTTP_LINK_RE_findall (c :: s) = HTTP_LINK_RE_findall s.
Proof. intros Hm. unfold HTTP_LINK_RE_findall. cbn [findall_from]. by rewrite Hm. Qed.

Lemma not_starts_url_miss (s : pystr) : ~ starts_url s -> match_link s = None.
Proof.
  intros Hno. destruct (match_link s) as [m|] eqn:E; [ | done ].
  destruct (match_link_sound _ _ E) as (post & -> & Hurl & _).
  exfalso. apply Hno. by exists m, post.
Qed.

Lemma url_scan_cons (c : char) (s : pystr) (l : list pystr) :
  ~ starts_url (c :: s) -> url_scan s l -> url_scan (c :: s) l.
Proof.
  intros Hno Hscan. destruct Hscan as [s Hnone | pre m post ms Hpre Hurl Hpost Hscan].
  - apply scan_end. intros [|i]; [ done | apply Hnone ].
  - change (c :: pre ++ m ++ post) with ((c :: pre) ++ m ++ post).
    apply scan_hit; try done.
    intros [|i] Hi; [ done | ]. cbn [app drop]. apply Hpre. cbn in Hi. lia.
Qed.

Lemma findall_scans_aux (n : nat) (s : pystr) :
  (length s <= n)%nat -> url_scan s (HTTP_LINK_RE_findall s).
Proof.
  revert s. induction n as [|n IH]; intros s Hlen.
  - destruct s; [ | cbn in Hlen; lia ].
    apply scan_end. intros i [m [rest [E Hurl]]].
    rewrite drop_nil in E. symmetry in E. apply app_eq_nil in E as [-> _].
    by apply is_url_nonempty in Hurl.
  - destruct s as [|c s].
    + apply (IH []). cbn. lia.
    + destruct (match_link (c :: s)) as [m|] eqn:E.
      * destruct (match_link_sound _ _ E) as (post & Hs & Hurl & Hpost).
        pose proof (is_url_nonempty _ Hurl) as Hne.
        rewrite Hs in E |- *. rewrite findall_hit by done.
        apply (scan_hit [] m post); try done.
        -- intros i Hi. cbn in Hi. lia.
        -- apply IH. apply (f_equal length) in Hs.
           rewrite length_app in Hs. cbn in Hs, Hlen.
           destruct m; [ done | cbn in Hs; lia ].
      * rewrite findall_miss by done.
        apply url_scan_cons; [ | apply IH; cbn in Hlen; lia ].
        intros Hstart. by apply match_link_complete in Hstart.
Qed.

Lemma findall_none (s : pystr) :
  (forall i, ~ starts_url (drop i s)) -> HTTP_LINK_RE_findall s = [].
Proof.
  induction s as [|c s IH]; intros Hnone; [ done | ].
  rewrite findall_miss by (apply not_starts_url_miss, (Hnone 0%nat)).
  apply IH. intros i. apply (Hnone (S i)).
Qed.

Lemma findall_after_gap (pre m post : pystr) :
  (forall i, (i < length pre)%nat -> ~ starts_url (drop i (pre ++ m ++ post))) ->
  is_url m ->
  (forall c, head post = Some c -> link_char c = false) ->
  HTTP_LINK_RE_findall (pre ++ m ++ post) = m :: HTTP_LINK_RE_findall post.
Proof.
  intros Hpre Hurl Hpost. induction pre as [|c pre IH].
  - cbn [app]. apply findall_hit; [ by apply match_link_unique | ].
    by apply is_url_nonempty.
  - cbn [app]. rewrite findall_miss.
    + apply IH. intros i Hi. apply (Hpre (S i)). cbn. lia.
    + apply not_starts_url_miss, (Hpre 0%nat). cbn. lia.
Qed.

Lemma url_scan_findall (s : pystr) (l : list pystr) :
  url_scan s l -> l = HTTP_LINK_RE_findall s.
Proof.
  induction 1 as [s Hnone | pre m post ms Hpre Hurl Hpost _ IH].
  - by rewrite findall_none.
  - rewrite findall_after_gap by done. by rewrite IH.
Qed.

(** C8: [extract_links] returns exactly the URLs of its input from left to
    right, each running up to the next terminator, repeated ones
    included; an empty or absent input gives no link. *)
Theorem extract_links_scan (text : option pystr) :
  url_scan (default [] text) (extract_links text)
  /\ (forall l, url_scan (default [] text) l -> l = extract_links text)
  /\ Forall (fun m => is_url m /\ occurs_in m (default [] text))
       (extract_links text)
  /\ (text = None \/ text = Some [] -> extract_links text = []).
Proof.
  assert (extract_links text = HTTP_LINK_RE_findall (default [] text)) as ->
    by (by destruct text as [[|]|]).
  assert (url_scan (default [] text)
            (HTTP_LINK_RE_findall (default [] text))) as Hscan
    by (by eapply findall_scans_aux).
  split; [ done | split; [ apply url_scan_findall | split ] ].
  - induction Hscan as [| pre m post ms _ Hurl _ _ IH]; constructor.
    + split; [ done | by exists pre, post ].
    + eapply Forall_impl; [ exact IH | ].
      intros x [Hx (a & b & ->)]. split; [ done | ].
      exists (pre ++ m ++ a), b. by rewrite <- !app_assoc.
  - by intros [-> | ->].
Qed.

(** Order and repetitions, on a sample: a URL that occurs twice is listed
    twice, and a comma is part of a URL while [)] and [>] end one. *)
Example extract_links_sample :
  extract_links
    (Some (str "see http://a.io, (https://b.io) and HTTP://c.io> or http://a.io,"))
  = [str "http://a.io,"; str "https://b.io"; str "HTTP://c.io";
     str "http://a.io,"].
Proof. vm_compute. reflexivity. Qed.

(** ** When [unescape] raises *)

Lemma span_upto_spec (n : nat) (p : char -> bool) (s a b : pystr) :
  span_upto n p s = (a, b) ->
  s = a ++ b /\ Forall (fun c => p c = true) a.
Proof.
  revert s a b. induction n as [|n IH]; intros s a b; cbn [span_upto].
  - intros [= <- <-]. by split.
  - destruct s as [|c s]; [ intros [= <- <-]; by split | ].
    destruct (p c) eqn:Hc; [ | intros [= <- <-]; by split ].
    destruct (span_upto n p s) as [a' b'] eqn:E. intros [= <- <-].
    destruct (IH _ _ _ E) as [-> Ha]. split; [ done | by constructor ].
Qed.

Lemma span_prefix (p : char -> bool) (a post : pystr) :
  Forall (fun c => p c = true) a ->
  exists a' b, span p (a ++ post) = (a ++ a', b) /\ post = a' ++ b.
Proof.
  induction 1 as [|c a Hc _ (a' & b & E & Hpost)]; cbn [app span].
  - destruct (span p post) as [a' b] eqn:E. exists a', b.
    split; [ done | by apply span_spec in E as [? _] ].
  - rewrite Hc, E. by exists a', b.
Qed.

Lemma rstrip_keeps (c : char) (s : pystr) :
  Forall (fun x => x <> c) s -> rstrip c s = s.
Proof.
  induction 1 as [|x s Hx _ IH]; cbn [rstrip]; [ done | ]. rewrite IH.
  destruct s; [ | done ]. by apply N.eqb_neq in Hx as ->.
Qed.

Lemma rstrip_one (c : char) (s : pystr) : rstrip c (s ++ [c]) = rstrip c s.
Proof.
  induction s as [|x s IH]; cbn [app rstrip]; [ | by rewrite IH ].
  by rewrite N.eqb_refl.
Qed.

Lemma opt_semicolon_cases (s : pystr) :
  (opt_semicolon s = [] \/ opt_semicolon s = [ch ";"])
  /\ exists rest, s = opt_semicolon s ++ rest.
Proof.
  destruct s as [|c s]; cbn [opt_semicolon]; [ split; [ by left | by exists [] ] | ].
  destruct (N.eqb_spec c (ch ";")) as [-> | _].
  - split; [ by right | by exists s ].
  - split; [ by left | by exists (c :: s) ].
Qed.

Lemma rstrip_opt_semicolon (body rest : pystr) :
  Forall (fun x => x <> ch ";") body ->
  rstrip (ch ";") (body ++ opt_semicolon rest) = body.
Proof.
  intros Hbody. destruct (opt_semicolon_cases rest) as [[-> | ->] _].
  - rewrite app_nil_r. by apply rstrip_keeps.
  - rewrite rstrip_one. by apply rstrip_keeps.
Qed.

Lemma digits_no_semicolon (ds : pystr) :
  Forall (fun c => is_digit c = true) ds -> Forall (fun x => x <> ch ";") ds.
Proof.
  intros Hds. eapply Forall_impl; [ exact Hds | ].
  intros c Hc ->. vm_compute in Hc. discriminate.
Qed.

(** [int] raises on long decimal strings only. *)
Lemma int_raises `{Interpreter} (s : pystr) (base : N) (e : exn) :
  int s base = Err e <->
  e = ValueError /\ binary_base base = false /\ (640 < length s)%nat
  /\ (0 < int_max_str_digits)%nat /\ (int_max_str_digits < length s)%nat.
Proof.
  unfold int.
  destruct (binary_base base); cbn [negb andb].
  { split; [ done | by intros (_ & ? & _) ]. }
  destruct (Nat.ltb_spec 640 (length s)); cbn [andb];
    [ | split; [ done | intros (_ & _ & ? & _); lia ] ].
  destruct (Nat.ltb_spec 0 int_max_str_digits); cbn [andb];
    [ | split; [ done | intros (_ & _ & _ & ? & _); lia ] ].
  destruct (Nat.ltb_spec int_max_str_digits (length s));
    [ | split; [ done | intros (_ & _ & _ & _ & ?); lia ] ].
  split; [ by intros [= <-] | by intros [-> _] ].
Qed.

(** The groups that [_charref] matches: a prefix of what follows the
    ampersand, without an ampersand; a group that starts with [#] and goes
    on with a digit is that digit run and maybe a semicolon. *)
Lemma match_charref_prefix (s g : pystr) :
  match_charref s = Some g ->
  (exists rest, s = g ++ rest) /\ Forall (fun c => c <> ch "&") g.
Proof.
  assert (forall body tail (q : char -> bool),
            (forall c, q c = true -> c <> ch "&") ->
            Forall (fun c => q c = true) body ->
            (exists rest, body ++ tail = (body ++ opt_semicolon tail) ++ rest)
            /\ Forall (fun c => c <> ch "&") (body ++ opt_semicolon tail))
    as Hgroup.
  { intros body tail q Hq Hbody.
    destruct (opt_semicolon_cases tail) as [Hopt [rest Hrest]]. split.
    - exists rest. by rewrite <- app_assoc, <- Hrest.
    - apply Forall_app. split; [ by eapply Forall_impl | ].
      destruct Hopt as [-> | ->]; [ done | by repeat constructor ]. }
  assert (forall c, is_hexdigit c = true -> c <> ch "&") as Hhex.
  { intros c Hc ->. vm_compute in Hc. discriminate. }
  assert (forall c, is_digit c = true -> c <> ch "&") as Hdig.
  { intros c Hc ->. vm_compute in Hc. discriminate. }
  assert (forall c, name_char c = true -> c <> ch "&") as Hname.
  { intros c Hc ->. vm_compute in Hc. discriminate. }
  unfold match_charref. destruct s as [|c r]; [ done | ].
  destruct (N.eqb_spec c (ch "#")) as [-> | Hc].
  - destruct (span is_digit r) as [[|d ds] r'] eqn:E.
    + destruct r as [|x r1]; [ done | ].
      destruct ((x =? ch "x") || (x =? ch "X")) eqn:Hx; [ | done ].
      destruct (span is_hexdigit r1) as [[|h hs] r''] eqn:E'; [ done | ].
      intros [= <-]. apply span_spec in E' as (-> & Hhs & _).
      destruct (Hgroup (h :: hs) r'' _ Hhex Hhs) as [[rest Hrest] Hall].
      split.
      * exists rest. cbn [app] in *. by rewrite Hrest.
      * constructor; [ done | ]. constructor; [ | done ].
        intros ->. vm_compute in Hx. discriminate.
    + intros [= <-]. apply span_spec in E as (-> & Hds & _).
      destruct (Hgroup (d :: ds) r' _ Hdig Hds) as [[rest Hrest] Hall].
      split.
      * exists rest. cbn [app] in *. by rewrite Hrest.
      * by constructor.
  - destruct (span_upto 32 name_char (c :: r)) as [[|n nm] r'] eqn:E; [ done | ].
    intros [= <-]. apply span_upto_spec in E as [E Hnm].
    rewrite E. by apply (Hgroup (n :: nm) r' name_char).
Qed.

Lemma match_charref_decimal (digits rest : pystr) :
  Forall (fun c => is_digit c = true) digits -> digits <> [] ->
  exists more tail,
    match_charref (ch "#" :: digits ++ rest)
    = Some (ch "#" :: (digits ++ more) ++ opt_semicolon tail)
    /\ Forall (fun c => is_digit c = true) (digits ++ more).
Proof.
  intros Hds Hne. unfold match_charref. rewrite N.eqb_refl.
  destruct (span_prefix is_digit digits rest Hds) as (more & tail & E & Hrest).
  rewrite E. exists more, tail.
  assert (Forall (fun c => is_digit c = true) (digits ++ more)) as Hall.
  { pose proof E as E'. apply span_spec in E' as (_ & Hall & _). done. }
  split; [ | done ].
  destruct digits as [|d0 digits]; [ done | reflexivity ].
Qed.

Lemma match_charref_decimal_inv (s s2 : pystr) (x : char) :
  match_charref s = Some (ch "#" :: x :: s2) ->
  (x =? ch "x") || (x =? ch "X") = false ->
  exists digits rest,
    s = ch "#" :: digits ++ rest
    /\ x :: s2 = digits ++ opt_semicolon rest
    /\ Forall (fun c => is_digit c = true) digits.
Proof.
  unfold match_charref. destruct s as [|c r]; [ done | ].
  destruct (N.eqb_spec c (ch "#")) as [-> | Hc].
  - destruct (span is_digit r) as [[|d ds] r'] eqn:E.
    + destruct r as [|y r1]; [ done | ].
      destruct ((y =? ch "x") || (y =? ch "X")) eqn:Hy; [ | done ].
      destruct (span is_hexdigit r1) as [[|h hs] r2] eqn:E'; [ done | ].
      intros [= <- _] Hx. congruence.
    + intros [= <- <-] _. apply span_spec in E as (-> & Hds & _).
      by exists (d :: ds), r'.
  - destruct (span_upto 32 name_char (c :: r)) as [[|n nm] r'] eqn:E; [ done | ].
    intros [= -> _]. apply span_upto_spec in E as [[= ->] _]. done.
Qed.

Lemma replace_charref_raises `{Interpreter} (g : pystr) (e : exn) :
  _replace_charref g = Err e ->
  e = ValueError /\ (0 < int_max_str_digits)%nat
  /\ exists x s2,
       g = ch "#" :: x :: s2
       /\ (x =? ch "x") || (x =? ch "X") = false
       /\ (640 < length (rstrip (ch ";") (x :: s2)))%nat
       /\ (int_max_str_digits < length (rstrip (ch ";") (x :: s2)))%nat.
Proof.
  unfold _replace_charref. destruct g as [|c s1]; [ done | ].
  destruct (N.eqb_spec c (ch "#")) as [-> | _]; [ | done ].
  destruct s1 as [|x s2]; [ done | ].
  destruct ((x =? ch "x") || (x =? ch "X")) eqn:Hx.
  - destruct (int (rstrip (ch ";") s2) 16) as [n|e1] eqn:E; [ done | ].
    apply int_raises in E as (_ & Hbase & _). vm_compute in Hbase. done.
  - destruct (int (rstrip (ch ";") (x :: s2)) 10) as [n|e1] eqn:E; [ done | ].
    intros [= <-]. apply int_raises in E as (-> & _ & H640 & Hon & Hmax).
    split; [ done | split; [ done | ] ]. by exists x, s2.
Qed.

Lemma overlong_cons `{Interpreter} (c : char) (s : pystr) :
  overlong s -> overlong (c :: s).
Proof.
  intros (Hon & pre & digits & post & -> & Hds & H640 & Hmax).
  split; [ done | ]. by exists (c :: pre), digits, post.
Qed.

Lemma charref_sub_raises `{Interpreter} (k : nat) (s : pystr) (e : exn) :
  charref_sub k s = Err e -> e = ValueError /\ overlong s.
Proof.
  revert k. induction s as [|c rest IH]; intros k; [ done | ].
  cbn [charref_sub]. destruct k as [|k].
  - assert (forall (f : pystr -> pystr),
              (t ← charref_sub 0 rest; Ok (f t)) = Err e ->
              e = ValueError /\ overlong (c :: rest)) as Hstep.
    { intros f. destruct (charref_sub 0 rest) as [t|e1] eqn:E; [ done | ].
      intros [= <-]. destruct (IH _ E) as [-> Hlong].
      split; [ done | by apply overlong_cons ]. }
    destruct (N.eqb_spec c (ch "&")) as [-> | _]; [ | apply (Hstep (cons c)) ].
    destruct (match_charref rest) as [g|] eqn:Hg;
      [ | apply (Hstep (cons (ch "&"))) ].
    destruct (_replace_charref g) as [r|e1] eqn:Hr.
    + destruct (charref_sub (length g) rest) as [t|e2] eqn:E; [ done | ].
      intros [= <-]. destruct (IH _ E) as [-> Hlong].
      split; [ done | by apply overlong_cons ].
    + intros [= <-].
      apply replace_charref_raises in Hr
        as (-> & Hon & x & s2 & -> & Hx & H640 & Hmax).
      destruct (match_charref_decimal_inv _ _ _ Hg Hx)
        as (digits & tail & -> & Es & Hds).
      rewrite Es, rstrip_opt_semicolon in H640, Hmax
        by (by apply digits_no_semicolon).
      split; [ done | split; [ done | ] ].
      by exists [], digits, tail.
  - intros E. destruct (IH _ E) as [-> Hlong].
    split; [ done | by apply overlong_cons ].
Qed.

Lemma charref_sub_overlong `{Interpreter} (pre digits post : pystr) (k : nat) :
  (0 < int_max_str_digits)%nat ->
  Forall (fun c => is_digit c = true) digits ->
  (640 < length digits)%nat -> (int_max_str_digits < length digits)%nat ->
  Forall (fun c => c <> ch "&")
    (take k (pre ++ ch "&" :: ch "#" :: digits ++ post)) ->
  charref_sub k (pre ++ ch "&" :: ch "#" :: digits ++ post) = Err ValueError.
Proof.
  intros Hon Hds H640 Hmax. revert k.
  induction pre as [|c pre IH]; intros k Hskip; cbn [app charref_sub].
  - destruct k as [|k]; [ | by apply Forall_cons in Hskip as [? _] ].
    rewrite N.eqb_refl.
    destruct (match_charref_decimal digits post Hds)
      as (more & tail & -> & Hall); [ intros ->; cbn in H640; lia | ].
    assert (_replace_charref (ch "#" :: (digits ++ more) ++ opt_semicolon tail)
            = Err ValueError) as ->; [ | done ].
    unfold _replace_charref. rewrite N.eqb_refl.
    destruct digits as [|d digits]; [ cbn in H640; lia | ].
    cbn [app]. apply Forall_cons in Hds as [Hd _].
    assert ((d =? ch "x") || (d =? ch "X") = false) as ->.
    { destruct (N.eqb_spec d (ch "x")) as [-> | _]; [ done | ].
      destruct (N.eqb_spec d (ch "X")) as [-> | _]; done. }
    change (d :: (digits ++ more) ++ opt_semicolon tail)
      with (((d :: digits) ++ more) ++ opt_semicolon tail).
    rewrite rstrip_opt_semicolon by (by apply digits_no_semicolon).
    assert (int ((d :: digits) ++ more) 10 = Err ValueError) as ->; [ | done ].
    apply int_raises. rewrite length_app.
    split; [ done | split; [ done | ] ]. repeat split; lia.
  - destruct k as [|k].
    + assert (charref_sub 0 (pre ++ ch "&" :: ch "#" :: digits ++ post)
              = Err ValueError) as Hrest by (by apply IH).
      destruct (N.eqb_spec c (ch "&")) as [-> | _]; [ | by rewrite Hrest ].
      destruct (match_charref (pre ++ ch "&" :: ch "#" :: digits ++ post))
        as [g|] eqn:Hg; [ | by rewrite Hrest ].
      destruct (_replace_charref g) as [r|e] eqn:Hr.
      * destruct (match_charref_prefix _ _ Hg) as [[rest Erest] Hamp].
        rewrite IH; [ done | ].
        rewrite Erest, take_app_length. done.
      * by apply replace_charref_raises in Hr as (-> & _).
    + apply IH. by apply Forall_cons in Hskip as [_ ?].
Qed.

(** [unescape] raises exactly on the overlong texts, and then
    [ValueError]. *)
Lemma unescape_raises `{Interpreter} (s : pystr) (e : exn) :
  unescape s = Err e <-> e = ValueError /\ overlong s.
Proof.
  unfold unescape. split.
  - destruct (existsb (fun c => c =? ch "&") s);
      [ apply charref_sub_raises | done ].
  - intros (-> & Hon & pre & digits & post & -> & Hds & H640 & Hmax).
    change (str "&#" ++ digits ++ post) with (ch "&" :: ch "#" :: digits ++ post).
    rewrite existsb_app. cbn [existsb]. rewrite N.eqb_refl, orb_true_r.
    by apply charref_sub_overlong.
Qed.

Lemma unescape_returns `{Interpreter} (s : pystr) :
  ~ overlong s <-> exists u, unescape s = Ok u.
Proof.
  split.
  - intros Hshort. destruct (unescape s) as [u|e] eqn:E; [ by exists u | ].
    apply unescape_raises in E as [_ Hlong]. done.
  - intros [u E] Hlong.
    assert (unescape s = Err ValueError) as E' by (by apply unescape_raises).
    congruence.
Qed.

Lemma overlong_length `{Interpreter} (s : pystr) :
  overlong s ->
  (0 < int_max_str_digits)%nat /\ (642 < length s)%nat
  /\ (int_max_str_digits + 2 < length s)%nat.
Proof.
  intros (Hon & pre & digits & post & -> & Hds & H640 & Hmax).
  rewrite !length_app. change (length (str "&#")) with 2%nat. lia.
Qed.

(** ** Editing the caller's blocks *)

(** *** Dictionaries *)

Lemma dict_get_set_eq {V} (d : dict V) (k : pystr) (v : V) :
  dict_get (dict_set d k v) k = Some v.
Proof.
  induction d as [|[k' v'] d IH]; cbn.
  - by rewrite decide_True.
  - destruct (decide (k' = k)) as [-> | Hne]; cbn.
    + by rewrite decide_True.
    + by rewrite decide_False.
Qed.

Lemma dict_get_set_ne {V} (d : dict V) (k k' : pystr) (v : V) :
  k <> k' -> dict_get (dict_set d k v) k' = dict_get d k'.
Proof.
  intros Hne. induction d as [|[k0 v0] d IH]; cbn.
  - by rewrite decide_False.
  - destruct (decide (k0 = k)) as [-> | Hk]; cbn.
    + by rewrite !decide_False.
    + by rewrite IH.
Qed.

Lemma text_is_not_type : str "text" <> str "type".
Proof. vm_compute. discriminate. Qed.

Lemma is_text_section_set_text (d : dict val) (v : val) :
  dict_contains d (str "text") = true ->
  is_text_section (dict_set d (str "text") v) = is_text_section d.
Proof.
  intros Hc. unfold is_text_section, dict_contains in *.
  rewrite dict_get_set_eq, dict_get_set_ne by apply text_is_not_type.
  by destruct (dict_get d (str "text")).
Qed.

(** *** Running the operations *)

Lemma bind_returns {A B} (m : M A) (f : A -> M B) (σ σ' : store) (a : A) :
  m σ = Returns a σ' -> (m ≫= f) σ = f a σ'.
Proof. intros E. unfold mbind, M_bind. by rewrite E. Qed.

Lemma bind_inv {A B} (m : M A) (f : A -> M B) (σ σ' : store) (b : B) :
  (m ≫= f) σ = Returns b σ' ->
  exists a σ1, m σ = Returns a σ1 /\ f a σ1 = Returns b σ'.
Proof.
  unfold mbind, M_bind. destruct (m σ) as [a σ1 | e σ1]; [ eauto | done ].
Qed.

Lemma as_dict_returns (σ : store) (a : addr) (d : dict val) :
  σ !! a = Some (ODict d) -> as_dict (VRef a) σ = Returns d σ.
Proof.
  intros E. unfold as_dict. erewrite bind_returns; [ | unfold deref; by rewrite E ].
  reflexivity.
Qed.

Lemma py_getitem_returns (σ : store) (a : addr) (d : dict val) (k : pystr) (x : val) :
  σ !! a = Some (ODict d) -> dict_get d k = Some x ->
  py_getitem (VRef a) k σ = Returns x σ.
Proof.
  intros E Hx. unfold py_getitem.
  erewrite bind_returns; [ | unfold deref; by rewrite E ].
  cbv beta iota. by rewrite Hx.
Qed.

Lemma py_setitem_returns (σ : store) (a : addr) (d : dict val) (k : pystr) (x : val) :
  σ !! a = Some (ODict d) ->
  py_setitem (VRef a) k x σ = Returns tt (<[a := ODict (dict_set d k x)]> σ).
Proof.
  intros E. unfold py_setitem.
  erewrite bind_returns; [ | unfold deref; by rewrite E ].
  reflexivity.
Qed.

Lemma py_unescape_returns `{Interpreter} (σ : store) (s u : pystr) :
  unescape s = Ok u -> py_unescape (VStr s) σ = Returns (VStr u) σ.
Proof. intros Hu. unfold py_unescape, mbind, M_bind, lift. by rewrite Hu. Qed.

Lemma py_unescape_raises `{Interpreter} (σ : store) (s : pystr) (e : exn) :
  unescape s = Err e -> py_unescape (VStr s) σ = Raises e σ.
Proof. intros Hu. unfold py_unescape, mbind, M_bind, lift. by rewrite Hu. Qed.

Lemma slot_of_block (σ : store) (a : addr) (d : dict val) :
  σ !! a = Some (ODict d) ->
  slot_of σ (VRef a)
  = if is_text_section d then
      match dict_get d (str "text") with
      | Some (VRef t) => Some t
      | _ => None
      end
    else None.
Proof. intros Ea. unfold slot_of, block_dict. by rewrite Ea. Qed.

(** One turn of the loop on an editable block whose text [unescape]
    accepts. *)
Lemma update_item_editable `{Interpreter} (σ : store) (item : val) :
  editable σ item -> decodable σ item ->
  update_item item σ
  = Returns tt match slot_of σ item with
               | Some t => alter retext t σ
               | None => σ
               end.
Proof.
  intros (d & Hd & Htext) Hdec.
  destruct item as [| | | |a]; try discriminate.
  unfold block_dict in Hd.
  destruct (σ !! a) as [[d'|]|] eqn:Ea; try discriminate.
  injection Hd as ->.
  pose proof (slot_of_block σ a d Ea) as Eslot.
  unfold update_item. rewrite (bind_returns _ _ _ _ _ (as_dict_returns _ _ _ Ea)).
  destruct (is_text_section d) eqn:Hsec; [ | by rewrite Eslot ].
  destruct (Htext eq_refl) as (t & td & s & Ht & Etd & Hs).
  rewrite Ht in Eslot.
  destruct (proj1 (unescape_returns s)) as [u Hu]; [ by apply (Hdec t td) | ].
  rewrite Eslot.
  rewrite (bind_returns _ _ _ _ _ (py_getitem_returns _ _ _ _ _ Ea Ht)).
  rewrite (bind_returns _ _ _ _ _ (py_getitem_returns _ _ _ _ _ Etd Hs)).
  rewrite (bind_returns _ _ _ _ _ (py_unescape_returns _ _ _ Hu)).
  unfold py_slice_to.
  rewrite (bind_returns _ _ σ σ (VStr (take 3000 u))) by reflexivity.
  rewrite (bind_returns _ _ _ _ _ (py_getitem_returns _ _ _ _ _ Ea Ht)).
  rewrite (py_setitem_returns _ _ _ _ _ Etd). f_equal.
  apply list_eq. intros i. rewrite list_lookup_alter.
  destruct (decide (t = i)) as [<- | Hne].
  - rewrite list_lookup_insert_eq by (by eapply lookup_lt_Some).
    rewrite Etd. unfold retext. cbn [fmap option_fmap option_map].
    by rewrite Hs, Hu.
  - by rewrite list_lookup_insert_ne.
Qed.

(** One turn of the loop on an editable block whose text [unescape]
    refuses: nothing is assigned. *)
Lemma update_item_overlong `{Interpreter} (σ : store) (a t : addr)
    (d td : dict val) (s : pystr) :
  σ !! a = Some (ODict d) -> is_text_section d = true ->
  dict_get d (str "text") = Some (VRef t) ->
  σ !! t = Some (ODict td) -> dict_get td (str "text") = Some (VStr s) ->
  overlong s ->
  update_item (VRef a) σ = Raises ValueError σ.
Proof.
  intros Ea Hsec Ht Etd Hs Hlong.
  assert (unescape s = Err ValueError) as Hu by (by apply unescape_raises).
  unfold update_item. rewrite (bind_returns _ _ _ _ _ (as_dict_returns _ _ _ Ea)).
  rewrite Hsec.
  rewrite (bind_returns _ _ _ _ _ (py_getitem_returns _ _ _ _ _ Ea Ht)).
  rewrite (bind_returns _ _ _ _ _ (py_getitem_returns _ _ _ _ _ Etd Hs)).
  unfold mbind at 1, M_bind at 1.
  by rewrite (py_unescape_raises _ _ _ Hu).
Qed.

Lemma retext_changes `{Interpreter} (o : obj) :
  retext o = o
  \/ exists td s u,
       o = ODict td /\ dict_get td (str "text") = Some (VStr s)
       /\ unescape s = Ok u
       /\ retext o = ODict (dict_set td (str "text") (VStr (take 3000 u))).
Proof.
  destruct o as [td|l]; [ | by left ]. unfold retext.
  destruct (dict_get td (str "text")) as [[| | |s|]|] eqn:E;
    try (left; reflexivity).
  destruct (unescape s) as [u|e] eqn:Hu; [ | by left ].
  right. by exists td, s, u.
Qed.

Lemma block_dict_inv (σ : store) (item : val) (d : dict val) :
  block_dict σ item = Some d ->
  exists a, item = VRef a /\ σ !! a = Some (ODict d).
Proof.
  destruct item as [| | | |a]; try discriminate. unfold block_dict.
  destruct (σ !! a) as [[d'|]|] eqn:Ea; try discriminate.
  intros [= ->]. by exists a.
Qed.

(** A store that differs from [σ] by [retext] at some addresses sees the
    same blocks, still editable, with the same slots. *)
Lemma editable_retext `{Interpreter} (σ σ' : store) (P : addr -> Prop)
    `{!forall a, Decision (P a)} (item : val) :
  (forall a, σ' !! a = if decide (P a) then retext <$> σ !! a else σ !! a) ->
  editable σ item ->
  editable σ' item /\ slot_of σ' item = slot_of σ item.
Proof.
  intros Hlook (d & Hd & Htext).
  destruct item as [| | | |a]; try discriminate.
  unfold block_dict in Hd.
  destruct (σ !! a) as [[d0|]|] eqn:Ea; try discriminate.
  injection Hd as ->.
  assert (forall t td s,
            σ !! t = Some (ODict td) ->
            dict_get td (str "text") = Some (VStr s) ->
            exists td' s',
              σ' !! t = Some (ODict td')
              /\ dict_get td' (str "text") = Some (VStr s')) as Hkeep.
  { intros t td s Etd Hs. rewrite Hlook, Etd.
    destruct (decide (P t)); [ | by exists td, s ].
    cbn [fmap option_fmap option_map].
    destruct (retext_changes (ODict td))
      as [-> | (td0 & s0 & u & [= <-] & _ & _ & ->)]; [ by exists td, s | ].
    do 2 eexists. split; [ reflexivity | apply dict_get_set_eq ]. }
  assert (σ' !! a = Some (ODict d)
          \/ exists d', σ' !! a = Some (ODict d')
                        /\ is_text_section d = false
                        /\ is_text_section d' = false) as [Ea' | Hoff].
  { rewrite Hlook, Ea. destruct (decide (P a)); [ | by left ].
    cbn [fmap option_fmap option_map].
    destruct (retext_changes (ODict d))
      as [-> | (td & s & u & [= <-] & Hs & _ & ->)]; [ by left | right ].
    eexists. split; [ reflexivity | ].
    assert (is_text_section d = false) as Hsec.
    { destruct (is_text_section d) eqn:Hsec; [ | done ].
      destruct (Htext eq_refl) as (t & ? & ? & Ht & _). congruence. }
    split; [ done | ].
    rewrite is_text_section_set_text; [ done | ].
    unfold dict_contains. by rewrite Hs. }
  - split.
    + exists d. split; [ unfold block_dict; by rewrite Ea' | ].
      intros Hsec. destruct (Htext Hsec) as (t & td & s & Ht & Etd & Hs).
      destruct (Hkeep t td s Etd Hs) as (td' & s' & Etd' & Hs').
      by exists t, td', s'.
    + unfold slot_of, block_dict. by rewrite Ea, Ea'.
  - destruct Hoff as (d' & Ea' & Hsec & Hsec'). split.
    + exists d'. split; [ unfold block_dict; by rewrite Ea' | ].
      congruence.
    + unfold slot_of, block_dict. by rewrite Ea, Ea', Hsec, Hsec'.
Qed.

Lemma lookup_alter_retext `{Interpreter} (σ : store) (t a : addr) :
  alter retext t σ !! a
  = if decide (a = t) then retext <$> σ !! a else σ !! a.
Proof.
  destruct (decide (a = t)) as [-> | Hne].
  - apply list_lookup_alter_eq.
  - by apply list_lookup_alter_ne.
Qed.

(** Editing one text dict leaves the blocks editable, with the same
    slots. *)
Lemma editable_alter_all `{Interpreter} (σ : store) (t : addr)
    (items : list val) :
  Forall (editable σ) items ->
  Forall (editable (alter retext t σ)) items
  /\ slots (alter retext t σ) items = slots σ items.
Proof.
  induction 1 as [|item items Hitem _ [IH1 IH2]]; [ done | ].
  destruct (editable_retext σ (alter retext t σ) (fun a => a = t) item
              (lookup_alter_retext σ t) Hitem) as [He Hs].
  split; [ by constructor | ].
  unfold slots in *. cbn [omap list_omap]. by rewrite Hs, IH2.
Qed.

(** It leaves the texts of the other slots as they are. *)
Lemma decodable_alter_all `{Interpreter} (σ : store) (t : addr)
    (items : list val) :
  Forall (editable σ) items -> t ∉ slots σ items ->
  Forall (decodable σ) items ->
  Forall (decodable (alter retext t σ)) items.
Proof.
  intros Hed Hnot Hdec. apply Forall_forall. intros item Hin.
  rewrite Forall_forall in Hed, Hdec.
  destruct (editable_retext σ (alter retext t σ) (fun a => a = t) item
              (lookup_alter_retext σ t) (Hed item Hin)) as [_ Eslot].
  intros t' td s Et' Etd Hs. rewrite Eslot in Et'.
  assert (t' <> t) as Hne.
  { intros ->. apply Hnot. unfold slots. apply list_elem_of_omap.
    by exists item. }
  rewrite list_lookup_alter_ne in Etd by done.
  by apply (Hdec item Hin t' td).
Qed.

(** A text of at most 3000 characters is accepted when the limit is off
    or at least 2998; the default is 4300. *)
Lemma cut_text_decodes `{Interpreter} (s : pystr) :
  (int_max_str_digits = 0 \/ 2998 <= int_max_str_digits)%nat ->
  (length s <= 3000)%nat -> ~ overlong s.
Proof. intros Hlimit Hlen Hlong%overlong_length. lia. Qed.

(** Under such a limit an edit leaves every text acceptable, also the
    one it has just assigned. *)
Lemma decodable_retext_all `{Interpreter} (σ : store) (t : addr)
    (items : list val) :
  (int_max_str_digits = 0 \/ 2998 <= int_max_str_digits)%nat ->
  Forall (editable σ) items -> Forall (decodable σ) items ->
  Forall (decodable (alter retext t σ)) items.
Proof.
  intros Hlimit Hed Hdec. apply Forall_forall. intros item Hin.
  rewrite Forall_forall in Hed, Hdec.
  destruct (editable_retext σ (alter retext t σ) (fun a => a = t) item
              (lookup_alter_retext σ t) (Hed item Hin)) as [_ Eslot].
  intros t' td s Et' Etd Hs. rewrite Eslot in Et'.
  rewrite lookup_alter_retext in Etd.
  destruct (decide (t' = t)) as [-> | Hne];
    [ | by apply (Hdec item Hin t' td) ].
  destruct (σ !! t) as [o|] eqn:Eo; [ | done ].
  cbn [fmap option_fmap option_map] in Etd. injection Etd as Etd.
  destruct (retext_changes o) as [E | (td0 & s0 & u & -> & _ & _ & E)];
    rewrite E in Etd.
  - subst o. by apply (Hdec item Hin t td).
  - injection Etd as <-. rewrite dict_get_set_eq in Hs. injection Hs as <-.
    apply cut_text_decodes; [ done | ]. rewrite length_take. lia.
Qed.

(** The loop on editable blocks whose text dicts are all different: it
    returns the blocks it was given, after [updated], and the store
    differs at the text dicts only, each edited once. *)
Lemma update_items_editable `{Interpreter} (items updated : list val)
    (σ : store) :
  Forall (editable σ) items -> Forall (decodable σ) items ->
  NoDup (slots σ items) ->
  exists σ',
    update_items items updated σ = Returns (updated ++ items) σ'
    /\ length σ' = length σ
    /\ forall a, σ' !! a = if decide (a ∈ slots σ items)
                           then retext <$> σ !! a else σ !! a.
Proof.
  revert updated σ.
  induction items as [|item items IH]; intros updated σ Hed Hdec Hnd.
  - exists σ. rewrite app_nil_r. split; [ reflexivity | split; [ done | ] ].
    intros a. rewrite decide_False; [ done | apply not_elem_of_nil ].
  - apply Forall_cons in Hed as [Hitem Hitems].
    apply Forall_cons in Hdec as [Hditem Hditems].
    cbn [update_items].
    rewrite (bind_returns _ _ _ _ _ (update_item_editable σ item Hitem Hditem)).
    unfold slots in *. cbn [omap list_omap] in *.
    destruct (slot_of σ item) as [t|] eqn:Hslot.
    + apply NoDup_cons in Hnd as [Hnot Hnd].
      destruct (editable_alter_all σ t items Hitems) as [Hed' Hslots'].
      pose proof (decodable_alter_all σ t items Hitems Hnot Hditems) as Hdec'.
      unfold slots in Hslots'.
      destruct (IH (updated ++ [item]) (alter retext t σ) Hed' Hdec')
        as (σ' & Hrun & Hlen & Hlook).
      { by rewrite Hslots'. }
      exists σ'. rewrite Hrun, <- app_assoc. split; [ done | ].
      split; [ by rewrite Hlen, length_alter | ].
      intros a. rewrite Hlook, Hslots'.
      destruct (decide (a = t)) as [-> | Hne].
      * rewrite decide_False by done. rewrite decide_True by left.
        apply list_lookup_alter_eq.
      * rewrite list_lookup_alter_ne by done.
        destruct (decide (a ∈ omap (slot_of σ) items)) as [Hin | Hnin].
        -- rewrite decide_True by (by right). done.
        -- rewrite decide_False; [ done | ].
           intros [? | ?]%elem_of_cons; done.
    + destruct (IH (updated ++ [item]) σ Hitems Hditems Hnd)
        as (σ' & Hrun & Hlen & Hlook).
      exists σ'. rewrite Hrun, <- app_assoc. done.
Qed.

(** The loop on editable blocks, shared text dicts allowed: under a limit
    that accepts every cut text it returns the blocks it was given. *)
Lemma update_items_total `{Interpreter} (items updated : list val)
    (σ : store) :
  (int_max_str_digits = 0 \/ 2998 <= int_max_str_digits)%nat ->
  Forall (editable σ) items -> Forall (decodable σ) items ->
  exists σ',
    update_items items updated σ = Returns (updated ++ items) σ'
    /\ length σ' = length σ.
Proof.
  intros Hlimit. revert updated σ.
  induction items as [|item items IH]; intros updated σ Hed Hdec.
  - exists σ. by rewrite app_nil_r.
  - apply Forall_cons in Hed as [Hitem Hitems].
    apply Forall_cons in Hdec as [Hditem Hditems].
    cbn [update_items].
    rewrite (bind_returns _ _ _ _ _ (update_item_editable σ item Hitem Hditem)).
    destruct (slot_of σ item) as [t|].
    + destruct (editable_alter_all σ t items Hitems) as [Hed' _].
      pose proof (decodable_retext_all σ t items Hlimit Hitems Hditems) as Hdec'.
      destruct (IH (updated ++ [item]) (alter retext t σ) Hed' Hdec')
        as (σ' & Hrun & Hlen).
      exists σ'. rewrite Hrun, <- app_assoc.
      split; [ done | by rewrite Hlen, length_alter ].
    + destruct (IH (updated ++ [item]) σ Hitems Hditems) as (σ' & Hrun & Hlen).
      exists σ'. by rewrite Hrun, <- app_assoc.
Qed.

(** Blocks of a given store whose texts are short. *)
Lemma decodable_short `{Interpreter} (σ : store) (item : val) :
  match slot_of σ item with
  | Some t =>
      match σ !! t with
      | Some (ODict td) =>
          match dict_get td (str "text") with
          | Some (VStr s) => (length s <=? 642)%nat = true
          | _ => True
          end
      | _ => True
      end
  | None => True
  end ->
  decodable σ item.
Proof.
  intros Hshort t td s Et Etd Hs. rewrite Et, Etd, Hs in Hshort.
  apply Nat.leb_le in Hshort. intros Hlong%overlong_length. lia.
Qed.

(** *** What a returning call has met *)

Lemma deref_inv (a : addr) (σ σ' : store) (o : obj) :
  deref a σ = Returns o σ' -> σ !! a = Some o /\ σ' = σ.
Proof. unfold deref. destruct (σ !! a); [ by intros [= -> ->] | done ]. Qed.

Lemma as_dict_inv (item : val) (σ σ' : store) (d : dict val) :
  as_dict item σ = Returns d σ' ->
  exists a, item = VRef a /\ σ !! a = Some (ODict d) /\ σ' = σ.
Proof.
  destruct item as [| | | |a]; try discriminate. unfold as_dict.
  intros (o & σ1 & [Ho ->]%deref_inv & Hrun)%bind_inv.
  destruct o; [ | discriminate ]. injection Hrun as -> ->. eauto.
Qed.

Lemma py_getitem_inv (v : val) (k : pystr) (σ σ' : store) (x : val) :
  py_getitem v k σ = Returns x σ' ->
  exists a d,
    v = VRef a /\ σ !! a = Some (ODict d) /\ dict_get d k = Some x /\ σ' = σ.
Proof.
  destruct v as [| | | |a]; try discriminate. unfold py_getitem.
  intros (o & σ1 & [Ho ->]%deref_inv & Hrun)%bind_inv.
  destruct o as [d|]; [ | discriminate ].
  destruct (dict_get d k) as [y|] eqn:E; [ | discriminate ].
  injection Hrun as -> ->. eauto 10.
Qed.

Lemma py_setitem_inv (v : val) (k : pystr) (c : val) (σ σ' : store) :
  py_setitem v k c σ = Returns tt σ' ->
  exists a d,
    v = VRef a /\ σ !! a = Some (ODict d)
    /\ σ' = <[a := ODict (dict_set d k c)]> σ.
Proof.
  destruct v as [| | | |a]; try discriminate. unfold py_setitem.
  intros (o & σ1 & [Ho ->]%deref_inv & Hrun)%bind_inv.
  destruct o as [d|]; [ | discriminate ].
  injection Hrun as <-. eauto.
Qed.


Lemma py_unescape_inv `{Interpreter} (x u : val) (σ σ' : store) :
  py_unescape x σ = Returns u σ' ->
  σ' = σ /\ ((exists s, u = VStr s) \/ u = x).
Proof.
  destruct x as [| | |s|a]; try discriminate; unfold py_unescape.
  - intros (u' & σ1 & Hu & Hrun)%bind_inv. unfold lift in Hu.
    destruct (unescape s) as [r|e]; [ | discriminate ].
    injection Hu as <- <-. injection Hrun as <- <-. eauto.
  - intros (o & σ1 & [Ho ->]%deref_inv & Hrun)%bind_inv.
    destruct o as [d|l].
    + destruct (dict_contains d (str "&")); [ discriminate | ].
      injection Hrun as <- <-. eauto.
    + destruct (existsb _ l); [ discriminate | ].
      injection Hrun as <- <-. eauto.
Qed.

Lemma py_slice_to_inv (n : nat) (u c : val) (σ σ' : store) :
  py_slice_to n u σ = Returns c σ' ->
  (σ' = σ /\ exists s, c = VStr s)
  \/ (exists l, σ' = σ ++ [OList l] /\ c = VRef (length σ)).
Proof.
  destruct u as [| | |s|a]; try discriminate; unfold py_slice_to.
  - intros [= <- <-]. eauto.
  - intros (o & σ1 & [Ho ->]%deref_inv & Hrun)%bind_inv.
    destruct o as [d|l]; [ discriminate | ].
    injection Hrun as <- <-. eauto.
Qed.


Lemma update_item_returns `{Interpreter} (item : val) (σ σ' : store) :
  update_item item σ = Returns tt σ' -> mapping_text σ item /\ edits σ σ'.
Proof.
  unfold update_item.
  intros (d & σ1 & (a & -> & Ea & ->)%as_dict_inv & Hrun)%bind_inv.
  destruct (is_text_section d) eqn:Hsec.
  - apply bind_inv in Hrun
      as (t & σ1 & (a1 & d1 & [= <-] & Ea1 & Ht & ->)%py_getitem_inv & Hrun).
    assert (d1 = d) as -> by congruence.
    apply bind_inv in Hrun
      as (x & σ1 & (t1 & td & -> & Etd & Hx & ->)%py_getitem_inv & Hrun).
    apply bind_inv in Hrun as (u & σ1 & [-> Hu]%py_unescape_inv & Hrun).
    apply bind_inv in Hrun as (c & σ1 & Hc%py_slice_to_inv & Hrun).
    apply bind_inv in Hrun
      as (t' & σ2 & (a2 & d2 & [= <-] & Ea2 & Ht' & ->)%py_getitem_inv & Hrun).
    apply py_setitem_inv in Hrun as (a3 & d3 & -> & Ea3 & ->).
    assert (dict_contains td (str "text") = true) as Hcontains
      by (unfold dict_contains; by rewrite Hx).
    assert (forall i o, σ !! i = Some o -> σ1 !! i = Some o) as Hkeep.
    { intros i o Hi. destruct Hc as [[-> _] | (l & -> & _)]; [ done | ].
      by apply lookup_app_l_Some. }
    rewrite (Hkeep _ _ Ea) in Ea2. injection Ea2 as <-.
    rewrite Ht in Ht'. injection Ht' as <-.
    rewrite (Hkeep _ _ Etd) in Ea3. injection Ea3 as <-.
    split.
    + exists d. split; [ unfold block_dict; by rewrite Ea | ].
      intros _. by exists t1, td.
    + destruct Hc as [[-> (s & ->)] | (l & -> & ->)]; by constructor.
  - injection Hrun as <-. split; [ | constructor ].
    exists d. split; [ unfold block_dict; by rewrite Ea | ]. congruence.
Qed.

(** What one turn leaves editable-looking was so before the turn. *)
Lemma mapping_text_before (σ σ' : store) (item : val) :
  edits σ σ' -> mapping_text σ' item -> mapping_text σ item.
Proof.
  intros Hedit (d' & Hd' & Htext).
  destruct (block_dict_inv _ _ _ Hd') as (a & -> & Ea').
  destruct Hedit as [| t td s Etd Hc | t td l Etd Hc].
  - by exists d'.
  - pose proof (lookup_lt_Some _ _ _ Etd) as Hlt.
    destruct (decide (t = a)) as [-> | Hne].
    + rewrite list_lookup_insert_eq in Ea' by done. injection Ea' as <-.
      exists td. split; [ unfold block_dict; by rewrite Etd | ].
      intros Hsec. rewrite is_text_section_set_text in Htext by done.
      destruct (Htext Hsec) as (t' & td' & Ht' & _).
      rewrite dict_get_set_eq in Ht'. discriminate.
    + rewrite list_lookup_insert_ne in Ea' by done.
      exists d'. split; [ unfold block_dict; by rewrite Ea' | ].
      intros Hsec. destruct (Htext Hsec) as (t' & td' & Ht' & Etd').
      destruct (decide (t = t')) as [<- | Hne'].
      * by exists t, td.
      * rewrite list_lookup_insert_ne in Etd' by done. by exists t', td'.
  - pose proof (lookup_lt_Some _ _ _ Etd) as Hlt.
    assert ((σ ++ [OList l]) !! length σ = Some (OList l)) as Hnew.
    { rewrite lookup_app_r by done. by rewrite Nat.sub_diag. }
    assert (forall i o,
              i <> t ->
              <[t := ODict (dict_set td (str "text") (VRef (length σ)))]>
                (σ ++ [OList l]) !! i = Some (ODict o) ->
              σ !! i = Some (ODict o)) as Hold.
    { intros i o Hi. rewrite list_lookup_insert_ne by done.
      destruct (decide (i < length σ)%nat) as [Hin | Hout].
      - by rewrite lookup_app_l.
      - destruct (decide (i = length σ)) as [-> | Hi'].
        + by rewrite Hnew.
        + rewrite lookup_ge_None_2; [ done | ].
          rewrite length_app. cbn. lia. }
    destruct (decide (t = a)) as [-> | Hne].
    + rewrite list_lookup_insert_eq in Ea' by (rewrite length_app; lia).
      injection Ea' as <-.
      exists td. split; [ unfold block_dict; by rewrite Etd | ].
      intros Hsec. rewrite is_text_section_set_text in Htext by done.
      destruct (Htext Hsec) as (t' & td' & Ht' & Etd').
      rewrite dict_get_set_eq in Ht'. injection Ht' as <-.
      rewrite list_lookup_insert_ne, Hnew in Etd' by lia. discriminate.
    + exists d'. split; [ unfold block_dict; by rewrite (Hold a d') | ].
      intros Hsec. destruct (Htext Hsec) as (t' & td' & Ht' & Etd').
      destruct (decide (t = t')) as [<- | Hne'].
      * by exists t, td.
      * exists t', td'. split; [ done | by apply Hold ].
Qed.

Lemma update_items_returns `{Interpreter} (items updated result : list val)
    (σ σ' : store) :
  update_items items updated σ = Returns result σ' ->
  Forall (mapping_text σ) items /\ result = updated ++ items.
Proof.
  revert updated σ. induction items as [|item items IH]; intros updated σ.
  - intros [= <- <-]. by rewrite app_nil_r.
  - cbn [update_items].
    intros ([] & σ1 & [Hitem Hedit]%update_item_returns & Hrun)%bind_inv.
    apply IH in Hrun as [Hrest ->]. rewrite <- app_assoc. split; [ | done ].
    constructor; [ done | ].
    eapply Forall_impl; [ exact Hrest | ].
    intros x. by apply mapping_text_before.
Qed.

Lemma slots_text (σ : store) (items : list val) (t : addr) :
  Forall (editable σ) items -> t ∈ slots σ items ->
  exists td s,
    σ !! t = Some (ODict td) /\ dict_get td (str "text") = Some (VStr s).
Proof.
  intros Hed (item & Hin & Hslot)%list_elem_of_omap.
  rewrite Forall_forall in Hed. destruct (Hed item Hin) as (d & Hd & Htext).
  unfold slot_of in Hslot. rewrite Hd in Hslot.
  destruct (is_text_section d); [ | discriminate ].
  destruct (Htext eq_refl) as (t' & td & s & Ht' & Etd & Hs).
  rewrite Ht' in Hslot. injection Hslot as ->. eauto.
Qed.

Lemma feedback_update_block_body `{Interpreter} (self : BlockKit) (items : list val) :
  block_body self = Some items -> items <> [] ->
  feedback_update_block self
  = (updated ← update_items items []; mret (Existing updated)).
Proof.
  intros Hb Hne. unfold feedback_update_block. rewrite Hb.
  destruct items; [ by destruct Hne | reflexivity ].
Qed.


Lemma slots_decode `{Interpreter} (σ : store) (items : list val) (t : addr)
    (td : dict val) (s : pystr) :
  Forall (decodable σ) items -> t ∈ slots σ items ->
  σ !! t = Some (ODict td) -> dict_get td (str "text") = Some (VStr s) ->
  exists u, unescape s = Ok u.
Proof.
  intros Hdec (item & Hin & Hslot)%list_elem_of_omap Etd Hs.
  rewrite Forall_forall in Hdec. apply unescape_returns.
  by apply (Hdec item Hin t td).
Qed.

Lemma feedback_update_block_fallback `{Interpreter} (self : BlockKit)
    (σ : store) :
  block_body self = None \/ block_body self = Some [] ->
  match build_answer_blocks self with
  | Ok payload =>
      exists blocks,
        payload = wrapper blocks
        /\ feedback_update_block self σ = Returns (Fresh (PList blocks)) σ
  | Err e => feedback_update_block self σ = Raises e σ
  end.
Proof.
  intros Hb.
  assert (feedback_update_block self σ
          = match build_answer_blocks self with
            | Ok payload =>
                match pv_getitem payload (str "blocks") with
                | Some blocks => Returns (Fresh blocks) σ
                | None => Raises KeyError σ
                end
            | Err e => Raises e σ
            end) as ->.
  { unfold feedback_update_block, mbind, M_bind, lift.
    destruct Hb as [-> | ->];
      (destruct (build_answer_blocks self) as [payload|e];
       [ by destruct (pv_getitem payload (str "blocks")) | done ]). }
  destruct (answer_cases (llm_answer self)) as [Hnone | (s & Hs & Hne)].
  - rewrite (build_answer_blocks_empty _ (truthy_false _ Hnone)).
    eexists. split; reflexivity.
  - destruct (unescape s) as [u|e] eqn:Hu.
    + rewrite (build_answer_blocks_answer _ _ _ Hs Hne Hu).
      eexists. split; reflexivity.
    + by rewrite (build_answer_blocks_raises _ _ _ Hs Hne Hu).
Qed.

(** C6 (as amended): on blocks that are dicts, whose sections with a
    [text] key hold a dict with a string [text] that [unescape] accepts,
    no such dict being shared by two of them, the call returns the same
    blocks in the same order; each of those strings has been unescaped
    and cut to 3000 characters, and no other object of the store has
    changed.  Without a block body (absent or empty) the call does what
    [build_answer_blocks] does: it returns its blocks, or raises what it
    raises; the alias does the same in every case. *)
Theorem feedback_update_block_edits `{Interpreter} (self : BlockKit)
    (σ : store) :
  (forall items,
     block_body self = Some items -> items <> [] ->
     Forall (editable σ) items -> Forall (decodable σ) items ->
     NoDup (slots σ items) ->
     exists σ',
       feedback_update_block self σ = Returns (Existing items) σ'
       /\ length σ' = length σ
       /\ (forall a, a ∉ slots σ items -> σ' !! a = σ !! a)
       /\ (forall t, t ∈ slots σ items ->
             exists td s u,
               σ !! t = Some (ODict td)
               /\ dict_get td (str "text") = Some (VStr s)
               /\ unescape s = Ok u
               /\ σ' !! t
                  = Some (ODict (dict_set td (str "text")
                                   (VStr (take 3000 u))))))
  /\ (block_body self = None \/ block_body self = Some [] ->
      match build_answer_blocks self with
      | Ok payload =>
          exists blocks,
            payload = wrapper blocks
            /\ feedback_update_block self σ
               = Returns (Fresh (PList blocks)) σ
      | Err e => feedback_update_block self σ = Raises e σ
      end)
  /\ feedback_update_block_session self σ = feedback_update_block self σ.
Proof.
  split; [ | split; [ apply feedback_update_block_fallback | reflexivity ] ].
  intros items Hb Hne Hed Hdec Hnd.
  destruct (update_items_editable items [] σ Hed Hdec Hnd)
    as (σ' & Hrun & Hlen & Hlook).
  exists σ'. rewrite (feedback_update_block_body _ _ Hb Hne).
  rewrite (bind_returns _ _ _ _ _ Hrun). cbn [app].
  split; [ reflexivity | split; [ done | split ] ].
  - intros a Ha. rewrite Hlook. by rewrite decide_False.
  - intros t Ht. destruct (slots_text _ _ _ Hed Ht) as (td & s & Etd & Hs).
    destruct (slots_decode _ _ _ _ _ Hdec Ht Etd Hs) as [u Hu].
    exists td, s, u. split; [ done | split; [ done | split; [ done | ] ] ].
    rewrite Hlook, decide_True, Etd by done.
    unfold retext. cbn [fmap option_fmap option_map]. by rewrite Hs, Hu.
Qed.

Lemma posted_message_editable : Forall (editable posted_message) [VRef 0; VRef 2].
Proof.
  repeat constructor.
  - eexists. split; [ reflexivity | ]. intros _.
    do 3 eexists. split; [ vm_compute; reflexivity | ].
    split; [ reflexivity | vm_compute; reflexivity ].
  - eexists. split; [ reflexivity | ]. vm_compute. discriminate.
Qed.


Lemma posted_message_decodable :
  Forall (@decodable cpython posted_message) [VRef 0; VRef 2].
Proof.
  constructor; [ | constructor; [ | constructor ] ];
    apply decodable_short; vm_compute; done.
Qed.

Lemma posted_message_run :
  @feedback_update_block cpython
    (with_block_body blank (Some [VRef 0; VRef 2])) posted_message
  = Returns (Existing [VRef 0; VRef 2])
      [ODict [(str "type", VStr (str "section")); (str "text", VRef 1)];
       ODict [(str "type", VStr (str "mrkdwn"));
              (str "text", VStr (str "1 < 2 & 3 > 2"))];
       ODict [(str "type", VStr (str "divider"))]].
Proof. vm_compute. reflexivity. Qed.

(** C6 at [posted_message]: the section's text is unescaped, the divider
    is as it was. *)
Lemma feedback_update_block_edits_witness :
  exists σ',
    @feedback_update_block cpython
      (with_block_body blank (Some [VRef 0; VRef 2])) posted_message
    = Returns (Existing [VRef 0; VRef 2]) σ'
    /\ σ' !! 1%nat
       = Some (ODict [(str "type", VStr (str "mrkdwn"));
                      (str "text", VStr (str "1 < 2 & 3 > 2"))])
    /\ σ' !! 2%nat = posted_message !! 2%nat.
Proof.
  destruct (proj1 (@feedback_update_block_edits cpython
                     (with_block_body blank (Some [VRef 0; VRef 2]))
                     posted_message)
              [VRef 0; VRef 2] eq_refl)
    as (σ' & Hrun & _ & Hframe & Hslots).
  - discriminate.
  - exact posted_message_editable.
  - exact posted_message_decodable.
  - vm_compute. repeat constructor; intros Hin; inversion Hin.
  - exists σ'. split; [ exact Hrun | split ].
    + destruct (Hslots 1%nat) as (td & s & u & Etd & Hs & Hu & ->).
      { vm_compute. left. }
      injection Etd as <-.
      replace (dict_get [(str "type", VStr (str "mrkdwn"));
                         (str "text", VStr (str "1 &#60; 2 &#38; 3 &#62; 2"))]
                 (str "text"))
        with (Some (VStr (str "1 &#60; 2 &#38; 3 &#62; 2"))) in Hs
        by (vm_compute; reflexivity).
      injection Hs as <-.
      replace (@unescape cpython (str "1 &#60; 2 &#38; 3 &#62; 2"))
        with (@Ok pystr (str "1 < 2 & 3 > 2")) in Hu
        by (vm_compute; reflexivity).
      injection Hu as <-. vm_compute. reflexivity.
    + apply Hframe. vm_compute. intros Hin.
      apply elem_of_cons in Hin as [Hin | Hin]; [ discriminate | inversion Hin ].
Defined.

(** C6 as stated fails, in two ways.  A section whose text dict holds
    [None] for its [text] makes the call raise; and when two blocks are
    one and the same object its text is unescaped twice:
    ["&#38;#65;"] unescapes to ["&#65;"], and the call leaves ["A"]. *)
Lemma feedback_update_block_raises_or_edits_twice :
  (forall python : Interpreter,
     @feedback_update_block python (with_block_body blank (Some [VRef 0]))
       null_text_message
     = Raises TypeError null_text_message)
  /\ (forall python : Interpreter,
        @unescape python (str "&#38;#65;") = Ok (str "&#65;")
        /\ @feedback_update_block python
             (with_block_body blank (Some [VRef 0; VRef 0]))
             escaped_twice_message
           = Returns (Existing [VRef 0; VRef 0])
               [ODict [(str "type", VStr (str "section")); (str "text", VRef 1)];
                ODict [(str "type", VStr (str "mrkdwn"));
                       (str "text", VStr (str "A"))]]).
Proof. split; intros python; [ | split ]; vm_compute; reflexivity. Qed.

(** ** Where the edit is not total *)

(** C10: a section whose [text] is a plain string makes
    [feedback_update_block] raise [TypeError]; so does every block
    sequence that holds such a section; and whenever the call returns,
    every block was a dict and every section with a [text] key had a dict
    for its [text]. *)
Theorem feedback_update_block_partial `{Interpreter} :
  feedback_update_block (with_block_body blank (Some [VRef 0]))
    plain_text_message
  = Raises TypeError plain_text_message
  /\ (forall self σ items a d s,
        block_body self = Some items -> VRef a ∈ items ->
        σ !! a = Some (ODict d) -> is_text_section d = true ->
        dict_get d (str "text") = Some (VStr s) ->
        exists e σ', feedback_update_block self σ = Raises e σ')
  /\ (forall self σ items result σ',
        block_body self = Some items -> items <> [] ->
        feedback_update_block self σ = Returns result σ' ->
        result = Existing items /\ Forall (mapping_text σ) items).
Proof.
  assert (forall self σ items result σ',
            block_body self = Some items -> items <> [] ->
            feedback_update_block self σ = Returns result σ' ->
            result = Existing items /\ Forall (mapping_text σ) items) as Hret.
  { intros self σ items result σ' Hb Hne.
    rewrite (feedback_update_block_body _ _ Hb Hne).
    intros (updated & σ1 & [Hall ->]%update_items_returns & Hrun)%bind_inv.
    injection Hrun as <- <-. done. }
  split; [ vm_compute; reflexivity | split; [ | exact Hret ] ].
  intros self σ items a d s Hb Hin Ea Hsec Hs.
  destruct (feedback_update_block self σ) as [result σ' | e σ'] eqn:Hrun;
    [ exfalso | eauto ].
  apply (Hret _ _ items) in Hrun as [_ Hall]; [ | done | ].
  - rewrite Forall_forall in Hall.
    destruct (Hall _ Hin) as (d' & Hd' & Htext).
    unfold block_dict in Hd'. rewrite Ea in Hd'. injection Hd' as <-.
    destruct (Htext Hsec) as (t & td & Ht & _). congruence.
  - intros ->. by apply not_elem_of_nil in Hin.
Qed.

(** C10 at a message that starts with a plain-string section, and at
    [posted_message], on which the call returns. *)
Lemma feedback_update_block_partial_witness :
  (exists e σ',
     @feedback_update_block cpython
       (with_block_body blank (Some [VRef 2; VRef 0]))
       (plain_text_message ++ posted_message)
     = Raises e σ')
  /\ Forall (mapping_text posted_message) [VRef 0; VRef 2].
Proof.
  split.
  - apply (proj1 (proj2 (@feedback_update_block_partial cpython))
             (with_block_body blank (Some [VRef 2; VRef 0]))
             (plain_text_message ++ posted_message) [VRef 2; VRef 0]
             0%nat
             [(str "type", VStr (str "section"));
              (str "text", VStr (str "Hello"))]
             (str "Hello")).
    + reflexivity.
    + right. left.
    + reflexivity.
    + vm_compute. reflexivity.
    + vm_compute. reflexivity.
  - apply (proj2 (proj2 (@feedback_update_block_partial cpython))
             (with_block_body blank (Some [VRef 0; VRef 2]))
             posted_message [VRef 0; VRef 2] _ _ eq_refl
             ltac:(discriminate) posted_message_run).
Defined.

(** ** Totality and placeholders *)

Lemma wf_block_section (t : pystr) : wf_block (_mk_section t) = true.
Proof. vm_compute. reflexivity. Qed.

Lemma wf_payload_wrapper (blocks : list pyval) :
  wf_payload (wrapper blocks) = wf_blocks blocks.
Proof. reflexivity. Qed.

Lemma wf_blocks_link_hint (links : list pystr) :
  wf_blocks (_link_hint_blocks links) = true.
Proof.
  destruct links as [|l links]; [ reflexivity | ].
  unfold _link_hint_blocks, wf_blocks. cbn [forallb].
  by rewrite wf_block_section.
Qed.

Lemma wf_blocks_feedback :
  wf_blocks feedback_block_kit = true
  /\ wf_blocks thread_feedback_block_kit = true.
Proof. split; vm_compute; reflexivity. Qed.

Lemma wf_blocks_answer (preamble : list pyval) (a : pystr)
    (links : list pystr) (feedback : list pyval) :
  wf_blocks preamble = true -> wf_blocks feedback = true ->
  wf_blocks (((preamble ++ [_mk_section a]) ++ _link_hint_blocks links)
             ++ feedback) = true.
Proof.
  intros Hp Hf. pose proof (wf_blocks_link_hint links) as Hl.
  unfold wf_blocks in *. rewrite !forallb_app, Hp, Hf, Hl. cbn [forallb].
  by rewrite wf_block_section.
Qed.

Lemma answer_builders_return `{Interpreter} (self : BlockKit) :
  (forall s, llm_answer self = Some s -> ~ overlong s) ->
  exists payload blocks,
    build_answer_blocks self = Ok payload /\ wf_payload payload = true
    /\ thread_block_kit self = Ok blocks /\ wf_blocks blocks = true.
Proof.
  intros Hshort.
  destruct (answer_cases (llm_answer self)) as [Hnone | (s & Hs & Hne)].
  - rewrite (build_answer_blocks_empty _ (truthy_false _ Hnone)).
    rewrite (thread_block_kit_empty _ (truthy_false _ Hnone)).
    do 2 eexists. split; [ reflexivity | ].
    split; [ | split; [ reflexivity | ] ].
    + rewrite wf_payload_wrapper. unfold wf_blocks. cbn [forallb].
      by rewrite wf_block_section.
    + unfold wf_blocks. cbn [forallb]. by rewrite wf_block_section.
  - destruct (proj1 (unescape_returns s) (Hshort s Hs)) as [u Hu].
    rewrite (build_answer_blocks_answer _ _ _ Hs Hne Hu).
    rewrite (thread_block_kit_answer _ _ _ Hs Hne Hu).
    do 2 eexists. split; [ reflexivity | ].
    split; [ | split; [ reflexivity | ] ].
    + rewrite wf_payload_wrapper.
      apply (wf_blocks_answer [_mk_section PREAMBLE]);
        [ | apply wf_blocks_feedback ].
      unfold wf_blocks. cbn [forallb]. by rewrite wf_block_section.
    + apply (wf_blocks_answer []); [ reflexivity | apply wf_blocks_feedback ].
Qed.

Lemma answer_builders_raise `{Interpreter} (self : BlockKit) (s : pystr) :
  llm_answer self = Some s -> overlong s ->
  build_answer_blocks self = Err ValueError
  /\ thread_block_kit self = Err ValueError.
Proof.
  intros Hs Hlong.
  assert (s <> []) as Hne.
  { intros ->. apply overlong_length in Hlong as (_ & Hlen & _).
    cbn in Hlen. lia. }
  assert (unescape s = Err ValueError) as Hu by (by apply unescape_raises).
  split.
  - apply (build_answer_blocks_raises _ _ _ Hs Hne Hu).
  - apply (thread_block_kit_raises _ _ _ Hs Hne Hu).
Qed.

(** C9 (as amended).  The builders that do not unescape return a
    well-formed block structure whatever fields are present.
    [build_answer_blocks] and [thread_block_kit] return one unless the
    answer is overlong, and then raise [ValueError].  An absent id is
    rendered as [<@None>], an absent ticket number as [None].
    [feedback_update_block] returns when the block body is absent or
    empty and the answer is not overlong, and, under a limit that accepts
    every cut text, when its blocks are editable and their texts are not
    overlong, shared or not. *)
Theorem formatting_methods_total `{Interpreter} (self : BlockKit)
    (ticket : HelpCentral.t) (σ : store) :
  (wf_blocks feedback_block_kit = true
   /\ wf_blocks thread_feedback_block_kit = true
   /\ wf_blocks self_help_link_block = true
   /\ wf_blocks (followup_block_kit self) = true
   /\ wf_blocks (followup_delay_message self) = true
   /\ wf_payload HelpCentral.open_ticket_cta = true
   /\ wf_payload (HelpCentral.clicked_ticket_button ticket) = true
   /\ wf_payload HelpCentral.ticket_creation_followup = true
   /\ wf_payload (HelpCentral.ticket_details ticket) = true
   /\ wf_payload HelpCentral.hc_outage = true)
  /\ ((forall s, llm_answer self = Some s -> ~ overlong s) ->
      exists payload blocks,
        build_answer_blocks self = Ok payload /\ wf_payload payload = true
        /\ thread_block_kit self = Ok blocks /\ wf_blocks blocks = true)
  /\ (forall s, llm_answer self = Some s -> overlong s ->
        build_answer_blocks self = Err ValueError
        /\ thread_block_kit self = Err ValueError)
  /\ (user_id self = None ->
      llm_answer self = None \/ llm_answer self = Some [] ->
      build_answer_blocks self
      = Ok (wrapper [section_block
                       (str "Sorry, <@None> — no suggestions have been found.")])
      /\ thread_block_kit self
         = Ok [section_block
                 (str "Sorry, <@None> — no suggestions have been found.")])
  /\ (bot_id self = None ->
      followup_block_kit self
      = [section_block
           (str "Not clear yet? I can guide you one step at a time — just @mention <@None> with your follow-up questions.")]
      /\ followup_delay_message self
         = [section_block
              (str "Did you find the suggestion satisfactory? If not, you can ask me more questions by sending me an @mention <@None>.")])
  /\ (HelpCentral.user_id ticket = None ->
      HelpCentral.clicked_ticket_button ticket
      = wrapper [section_block (str "<@None> clicked on *Open Support Request*")])
  /\ (HelpCentral.ticket_number ticket = None ->
      forall url, HelpCentral.ticket_url ticket = Some url -> url <> [] ->
        HelpCentral.ticket_details ticket
        = wrapper
            [section_block
               (str "The following HelpCentral ticket has been created on your behalf <"
                ++ url
                ++ str "|None> — someone from our team will follow up."
                ++ [10]
                ++ str "See SLA details: <https://cloudtech.apple.com/docs/sla|SLA link>")])
  /\ (block_body self = None \/ block_body self = Some [] ->
      (forall s, llm_answer self = Some s -> ~ overlong s) ->
      exists blocks,
        feedback_update_block self σ = Returns (Fresh (PList blocks)) σ
        /\ wf_blocks blocks = true)
  /\ (forall items,
        block_body self = Some items -> items <> [] ->
        (int_max_str_digits = 0 \/ 2998 <= int_max_str_digits)%nat ->
        Forall (editable σ) items -> Forall (decodable σ) items ->
        exists σ',
          feedback_update_block self σ = Returns (Existing items) σ'
          /\ length σ' = length σ).
Proof.
  split; [ | split; [ apply answer_builders_return | ] ].
  { split; [ apply wf_blocks_feedback | ].
    split; [ apply wf_blocks_feedback | ].
    split; [ vm_compute; reflexivity | ].
    split; [ unfold wf_blocks; cbn [followup_block_kit forallb];
             by rewrite wf_block_section | ].
    split; [ unfold wf_blocks; cbn [followup_delay_message forallb];
             by rewrite wf_block_section | ].
    split; [ vm_compute; reflexivity | ].
    split; [ vm_compute; reflexivity | ].
    split; [ vm_compute; reflexivity | ].
    split; [ vm_compute; reflexivity | vm_compute; reflexivity ]. }
  split; [ apply answer_builders_raise | ].
  split.
  { intros Hu Ha%truthy_false.
    rewrite (build_answer_blocks_empty _ Ha), (thread_block_kit_empty _ Ha).
    rewrite Hu. split; vm_compute; reflexivity. }
  split.
  { intros Hb. unfold followup_block_kit, followup_delay_message.
    rewrite Hb. split; vm_compute; reflexivity. }
  split.
  { intros Hu. unfold HelpCentral.clicked_ticket_button. rewrite Hu.
    vm_compute. reflexivity. }
  split.
  { intros Hn url Hurl Hne. unfold HelpCentral.ticket_details.
    rewrite Hurl, Hn. destruct url as [|c url]; [ by destruct Hne | ].
    cbn [truthy fmt].
    replace (str "The following HelpCentral ticket has been created on your behalf <")
      with (str "The following HelpCentral ticket has been created on your behalf "
            ++ str "<") by (vm_compute; reflexivity).
    replace (str "|None> — someone from our team will follow up.")
      with (str "|" ++ str "None"
            ++ str "> — someone from our team will follow up.")
      by (vm_compute; reflexivity).
    change newline with [10]. rewrite <- !app_assoc. reflexivity. }
  split.
  { intros Hb Hshort.
    destruct (answer_builders_return self Hshort)
      as (payload & _ & Hbuild & Hwf & _).
    pose proof (feedback_update_block_fallback self σ Hb) as Hrun.
    rewrite Hbuild in Hrun. destruct Hrun as (blocks & -> & Hrun).
    by exists blocks. }
  intros items Hb Hne Hlimit Hed Hdec.
  destruct (update_items_total items [] σ Hlimit Hed Hdec)
    as (σ' & Hrun & Hlen).
  exists σ'. rewrite (feedback_update_block_body _ _ Hb Hne).
  by rewrite (bind_returns _ _ _ _ _ Hrun).
Qed.

Lemma shared_text_message_editable :
  Forall (editable shared_text_message) [VRef 0; VRef 2; VRef 3].
Proof.
  repeat constructor.
  - eexists. split; [ reflexivity | ]. intros _.
    do 3 eexists. split; [ vm_compute; reflexivity | ].
    split; [ reflexivity | vm_compute; reflexivity ].
  - eexists. split; [ reflexivity | ]. vm_compute. discriminate.
  - eexists. split; [ reflexivity | ]. intros _.
    do 3 eexists. split; [ vm_compute; reflexivity | ].
    split; [ reflexivity | vm_compute; reflexivity ].
Qed.

(** C9 at the builder without any field, and at a message whose two
    sections share their text dict. *)
Lemma formatting_methods_total_witness :
  @build_answer_blocks cpython blank
  = Ok (wrapper [section_block
                   (str "Sorry, <@None> — no suggestions have been found.")])
  /\ exists σ',
       @feedback_update_block cpython
         (with_block_body blank (Some [VRef 0; VRef 2; VRef 3]))
         shared_text_message
       = Returns (Existing [VRef 0; VRef 2; VRef 3]) σ'
       /\ length σ' = length shared_text_message.
Proof.
  pose proof (@formatting_methods_total cpython blank ticket_lost
                shared_text_message) as (_ & _ & _ & Hnone & _).
  pose proof (@formatting_methods_total cpython
                (with_block_body blank (Some [VRef 0; VRef 2; VRef 3]))
                ticket_lost shared_text_message)
    as (_ & _ & _ & _ & _ & _ & _ & _ & Hruns).
  split; [ exact (proj1 (Hnone eq_refl (or_introl eq_refl))) | ].
  apply Hruns; [ reflexivity | discriminate | right; vm_compute; lia | | ].
  - exact shared_text_message_editable.
  - constructor; [ | constructor; [ | constructor; [ | constructor ] ] ];
      apply decodable_short; vm_compute; done.
Defined.

(** C9 as stated fails: with a block body present, though every other
    field is absent, [feedback_update_block] raises when a section's text
    dict has no [text] key; and with the answer alone present,
    [build_answer_blocks] and [thread_block_kit] raise when the answer is
    a character reference of 4301 digits. *)
Lemma feedback_update_block_raises_key_error :
  with_block_body blank (Some [VRef 0])
  = {| thread := None; question := None; user_id := None;
       block_body := Some [VRef 0]; channel_id := None;
       additional_details := None; bot_id := None; llm_answer := None;
       llm_link := None; channel_name := None |}
  /\ (forall python : Interpreter,
        @feedback_update_block python (with_block_body blank (Some [VRef 0]))
          untexted_message
        = Raises KeyError untexted_message)
  /\ @build_answer_blocks cpython (with_answer blank (Some overlong_answer))
     = Err ValueError
  /\ @thread_block_kit cpython (with_answer blank (Some overlong_answer))
     = Err ValueError.
Proof.
  split; [ reflexivity | split; [ intros python | split ] ];
    vm_compute; reflexivity.
Qed.

(** ** The cap on the answer text *)

Lemma unescape_without_ampersand `{Interpreter} (s : pystr) :
  ch "&" ∉ s -> unescape s = Ok s.
Proof.
  intros Hnot. unfold unescape.
  assert (existsb (fun c => c =? ch "&") s = false) as ->; [ | reflexivity ].
  induction s as [|c s IH]; [ reflexivity | ]. cbn [existsb].
  apply not_elem_of_cons in Hnot as [Hc Hs]. rewrite (IH Hs).
  destruct (N.eqb_spec c (ch "&")) as [-> | _]; [ by destruct Hc | reflexivity ].
Qed.

Lemma bind_raises {A B} (m : M A) (f : A -> M B) (σ σ' : store) (e : exn) :
  m σ = Raises e σ' -> (m ≫= f) σ = Raises e σ'.
Proof. intros E. unfold mbind, M_bind. by rewrite E. Qed.

(** C2 (as amended): when [unescape] returns [u] on a non-empty answer
    [s], the text field that carries the answer is [u] cut to 3000
    characters, in [build_answer_blocks], in [thread_block_kit] and in the
    section that [feedback_update_block] edits; it has
    [min 3000 (len u)] characters, hence at most 3000, and exactly 3000
    when [s] is longer than that and holds no ampersand.  [unescape]
    raises exactly when [s] is overlong, and then the three methods raise
    [ValueError]. *)
Theorem answer_text_capped `{Interpreter} (self : BlockKit) (s : pystr) :
  llm_answer self = Some s -> s <> [] ->
  (forall u, unescape s = Ok u ->
     (exists rest,
        build_answer_blocks self
        = Ok (wrapper (section_block PREAMBLE
                       :: section_block (take 3000 u) :: rest)))
     /\ (exists rest,
           thread_block_kit self = Ok (section_block (take 3000 u) :: rest))
     /\ (forall σ a d t td,
           σ !! a = Some (ODict d) -> is_text_section d = true ->
           dict_get d (str "text") = Some (VRef t) ->
           σ !! t = Some (ODict td) ->
           dict_get td (str "text") = Some (VStr s) ->
           exists σ',
             feedback_update_block (with_block_body self (Some [VRef a])) σ
             = Returns (Existing [VRef a]) σ'
             /\ σ' !! t
                = Some (ODict (dict_set td (str "text")
                                 (VStr (take 3000 u)))))
     /\ length (take 3000 u) = (3000 `min` length u)%nat
     /\ (length (take 3000 u) <= 3000)%nat)
  /\ (overlong s ->
      build_answer_blocks self = Err ValueError
      /\ thread_block_kit self = Err ValueError
      /\ (forall σ a d t td,
            σ !! a = Some (ODict d) -> is_text_section d = true ->
            dict_get d (str "text") = Some (VRef t) ->
            σ !! t = Some (ODict td) ->
            dict_get td (str "text") = Some (VStr s) ->
            feedback_update_block (with_block_body self (Some [VRef a])) σ
            = Raises ValueError σ))
  /\ ((exists u, unescape s = Ok u) \/ overlong s)
  /\ (overlong s -> (642 < length s)%nat)
  /\ (ch "&" ∉ s ->
      unescape s = Ok s
      /\ ((3000 < length s)%nat -> length (take 3000 s) = 3000%nat)).
Proof.
  intros Hs Hne. split; [ | split; [ | split; [ | split ] ] ].
  - intros u Hu. split; [ | split; [ | split; [ | split ] ] ].
    + rewrite (build_answer_blocks_answer _ _ _ Hs Hne Hu).
      eexists. reflexivity.
    + rewrite (thread_block_kit_answer _ _ _ Hs Hne Hu).
      eexists. reflexivity.
    + intros σ a d t td Ea Hsec Ht Etd Htd.
      assert (slot_of σ (VRef a) = Some t) as Hslot.
      { unfold slot_of, block_dict. by rewrite Ea, Hsec, Ht. }
      assert (Forall (editable σ) [VRef a]) as Hed.
      { constructor; [ | constructor ].
        exists d. split; [ unfold block_dict; by rewrite Ea | ].
        intros _. by exists t, td, s. }
      assert (Forall (decodable σ) [VRef a]) as Hdec.
      { constructor; [ | constructor ].
        intros t' td' s' Et' Etd' Hs'.
        assert (t' = t) as -> by congruence.
        assert (td' = td) as -> by congruence.
        assert (s' = s) as -> by congruence.
        apply unescape_returns. by exists u. }
      assert (slots σ [VRef a] = [t]) as Hslots.
      { unfold slots. cbn [omap list_omap]. by rewrite Hslot. }
      destruct (update_items_editable [VRef a] [] σ Hed Hdec)
        as (σ' & Hrun & _ & Hlook).
      { rewrite Hslots. apply NoDup_singleton. }
      exists σ'.
      rewrite (feedback_update_block_body _ [VRef a]) by done.
      rewrite (bind_returns _ _ _ _ _ Hrun). split; [ reflexivity | ].
      rewrite Hlook, Hslots, decide_True, Etd by left.
      unfold retext. cbn [fmap option_fmap option_map]. by rewrite Htd, Hu.
    + apply length_take.
    + rewrite length_take. lia.
  - intros Hlong.
    destruct (answer_builders_raise self s Hs Hlong) as [Hbuild Hthread].
    split; [ done | split; [ done | ] ].
    intros σ a d t td Ea Hsec Ht Etd Htd.
    rewrite (feedback_update_block_body _ [VRef a]) by done.
    apply bind_raises. cbn [update_items]. apply bind_raises.
    by apply (update_item_overlong σ a t d td s).
  - destruct (unescape s) as [u|e] eqn:Hu; [ left; by exists u | right ].
    by apply unescape_raises in Hu as [_ Hlong].
  - by intros (_ & Hlen & _)%overlong_length.
  - intros Hamp. split; [ by apply unescape_without_ampersand | ].
    intros Hlong. rewrite length_take. lia.
Qed.

(** C2 at [long_plain_answer]: the text field holds its first 3000
    characters. *)
Lemma answer_text_capped_witness :
  exists rest,
    @build_answer_blocks cpython (with_answer blank (Some long_plain_answer))
    = Ok (wrapper (section_block PREAMBLE
                   :: section_block (replicate 3000 (ch "x")) :: rest)).
Proof.
  destruct (@answer_text_capped cpython
              (with_answer blank (Some long_plain_answer))
              long_plain_answer eq_refl)
    as (Hreturns & _ & _ & _ & Hplain).
  - discriminate.
  - destruct Hplain as [Hu _].
    { intros [E _]%elem_of_replicate. discriminate E. }
    destruct (Hreturns _ Hu) as ((rest & Hbuild) & _).
    exists rest. rewrite Hbuild.
    unfold long_plain_answer. by rewrite take_replicate.
Defined.

(** C2 as stated fails, in two ways.  Unescaping comes first and shortens
    the text: 601 copies of ["&#65;"] are 3005 characters, and the text
    field holds the 601 letters they stand for.  And unescaping can raise:
    on a character reference of 4301 digits, 4303 characters, an
    interpreter with the default limit raises [ValueError]. *)
Lemma long_answer_below_3000 :
  length charref_answer = 3005%nat
  /\ length (replicate 601 (ch "A")) = 601%nat
  /\ (forall python : Interpreter,
        @build_answer_blocks python (with_answer blank (Some charref_answer))
        = Ok (wrapper ([section_block PREAMBLE;
                        section_block (replicate 601 (ch "A"))]
                       ++ feedback_block_kit))
        /\ @thread_block_kit python (with_answer blank (Some charref_answer))
           = Ok ([section_block (replicate 601 (ch "A"))]
                 ++ thread_feedback_block_kit))
  /\ length overlong_answer = 4303%nat
  /\ @build_answer_blocks cpython (with_answer blank (Some overlong_answer))
     = Err ValueError
  /\ @thread_block_kit cpython (with_answer blank (Some overlong_answer))
     = Err ValueError.
Proof.
  split; [ vm_compute; reflexivity | split; [ vm_compute; reflexivity | ] ].
  split; [ intros python; split; vm_compute; reflexivity | ].
  repeat split; vm_compute; reflexivity.
Qed.


(** * Further properties *)

(** ** Route labels are stable *)

Lemma documented_labels_fixed (k label : pystr) :
  (k, label) ∈ documented_routes ->
  label <> []
  /\ (dict_get channel_mapping label = Some label
      \/ dict_get channel_mapping label = None).
Proof.
  unfold documented_routes. intros Hin.
  repeat (apply elem_of_cons in Hin as [[= -> ->] | Hin];
          [ split; [ vm_compute; discriminate
                   | first [ left; vm_compute; reflexivity
                           | right; vm_compute; reflexivity ] ] | ]).
  by apply not_elem_of_nil in Hin.
Qed.

(** X1: whatever the key, [set_channel_name] stores a non-empty label,
    and normalising that label again gives the same label. *)
Theorem set_channel_name_stable (self : BlockKit) (raw : option pystr) :
  (exists label,
     channel_name (set_channel_name self raw) = Some label /\ label <> [])
  /\ channel_name
       (set_channel_name (set_channel_name self raw)
          (channel_name (set_channel_name self raw)))
     = channel_name (set_channel_name self raw).
Proof.
  assert (forall label,
            label <> [] ->
            dict_get channel_mapping label = Some label
            \/ dict_get channel_mapping label = None ->
            forall other,
              channel_name (set_channel_name other (Some label)) = Some label)
    as Hfix.
  { intros label Hne Hget other. unfold set_channel_name.
    cbn [channel_name with_channel_name].
    destruct Hget as [-> | ->]; [ reflexivity | ].
    destruct label; [ by destruct Hne | reflexivity ]. }
  assert (exists label,
            channel_name (set_channel_name self raw) = Some label
            /\ label <> []
            /\ (dict_get channel_mapping label = Some label
                \/ dict_get channel_mapping label = None))
    as (label & Hlabel & Hne & Hget).
  { unfold set_channel_name. cbn [channel_name with_channel_name].
    destruct raw as [k|].
    - destruct (dict_get channel_mapping k) as [label|] eqn:E.
      + exists label. split; [ reflexivity | ].
        destruct (channel_mapping_cases _ _ E) as [Hin | ->].
        * by apply (documented_labels_fixed k).
        * split; [ | by left ].
          intros ->. vm_compute in E. discriminate E.
      + destruct k as [|c k].
        * exists (str "General").
          split; [ reflexivity | split; [ vm_compute; discriminate | ] ].
          right. vm_compute. reflexivity.
        * exists (c :: k). split; [ reflexivity | split; [ done | by right ] ].
    - exists (str "General").
      split; [ reflexivity | split; [ vm_compute; discriminate | ] ].
      right. vm_compute. reflexivity. }
  split; [ by exists label | ].
  rewrite Hlabel. by apply Hfix.
Qed.

(** ** More on the links *)

Lemma url_scan_urls (s : pystr) (l : list pystr) :
  url_scan s l -> Forall is_url l.
Proof. induction 1; by constructor. Qed.

Lemma findall_scans (s : pystr) : url_scan s (HTTP_LINK_RE_findall s).
Proof. by eapply findall_scans_aux. Qed.

Lemma extract_links_findall (text : option pystr) :
  extract_links text = HTTP_LINK_RE_findall (default [] text).
Proof. by destruct text as [[|]|]. Qed.

Lemma ilit_link_char (p c : char) :
  p ∈ str "https" -> ilit p c = true -> link_char c = true.
Proof.
  change (str "https") with [ch "h"; ch "t"; ch "t"; ch "p"; ch "s"].
  intros Hp.
  repeat (apply elem_of_cons in Hp as [-> | Hp];
          [ unfold ilit;
            intros [[->%N.eqb_eq | ->%N.eqb_eq]%orb_prop
                   | [_ ->%N.eqb_eq]%andb_prop]%orb_prop;
            reflexivity | ]).
  by apply not_elem_of_nil in Hp.
Qed.

Lemma same_letters_link_chars (pattern scheme : pystr) :
  pattern ⊆ str "https" -> same_letters pattern scheme ->
  Forall (fun c => link_char c = true) scheme.
Proof.
  intros Hsub Hsame. induction Hsame as [|p c pattern scheme Hpc _ IH];
    constructor.
  - apply (ilit_link_char p); [ apply Hsub; left | done ].
  - apply IH. intros x Hx. apply Hsub. by right.
Qed.

(** No character of a URL is a terminator. *)
Lemma is_url_chars (m : pystr) :
  is_url m -> Forall (fun c => link_char c = true) m.
Proof.
  intros (scheme & body & -> & Hscheme & _ & Hbody).
  rewrite !Forall_app. split; [ | split; [ | done ] ].
  - destruct Hscheme as [H | H];
      (eapply same_letters_link_chars; [ | exact H ]).
    + change (str "http") with [ch "h"; ch "t"; ch "t"; ch "p"].
      change (str "https") with [ch "h"; ch "t"; ch "t"; ch "p"; ch "s"].
      intros x Hx.
      repeat (apply elem_of_cons in Hx as [-> | Hx];
              [ repeat first [ apply list_elem_of_here
                             | apply list_elem_of_further ] | ]).
      by apply not_elem_of_nil in Hx.
    + done.
  - change (str "://") with [ch ":"; ch "/"; ch "/"]. by repeat constructor.
Qed.

Lemma is_url_length (m : pystr) : is_url m -> (8 <= length m)%nat.
Proof.
  intros (scheme & body & -> & Hscheme & Hne & _).
  rewrite !length_app. change (length (str "://")) with 3%nat.
  assert (4 <= length scheme)%nat.
  { destruct Hscheme as [H | H].
    - apply same_letters_http in H as (? & ? & ? & ? & -> & _). cbn. lia.
    - apply same_letters_https in H as (? & ? & ? & ? & ? & -> & _). cbn. lia. }
  destruct body; [ done | cbn; lia ].
Qed.

Lemma findall_url (m : pystr) : is_url m -> HTTP_LINK_RE_findall m = [m].
Proof.
  intros Hurl. rewrite <- (app_nil_r m) at 1.
  rewrite findall_hit.
  - reflexivity.
  - apply match_link_unique; [ done | discriminate ].
  - by apply is_url_nonempty.
Qed.

(** X2: a link that [extract_links] returns is at least eight characters
    long, holds no white space and none of [)], [>], []], and, given back
    to [extract_links] on its own, is returned whole and alone. *)
Theorem extract_links_fixed (text : option pystr) (m : pystr) :
  m ∈ extract_links text ->
  extract_links (Some m) = [m]
  /\ (8 <= length m)%nat
  /\ Forall (fun c => is_space c = false /\ c <> ch ")" /\ c <> ch ">"
                      /\ c <> ch "]") m.
Proof.
  rewrite extract_links_findall. intros Hin.
  pose proof (url_scan_urls _ _ (findall_scans (default [] text))) as Hall.
  rewrite Forall_forall in Hall. specialize (Hall m Hin).
  split; [ | split; [ by apply is_url_length | ] ].
  - rewrite extract_links_findall. cbn [default]. by apply findall_url.
  - eapply Forall_impl; [ exact (is_url_chars m Hall) | ].
    intros c Hc. unfold link_char in Hc.
    apply negb_true_iff in Hc.
    apply orb_false_elim in Hc as [Hc H3]. apply orb_false_elim in Hc as [Hc H2].
    apply orb_false_elim in Hc as [H0 H1].
    by repeat split; [ | apply N.eqb_neq .. ].
Qed.

Lemma extract_links_fixed_witness :
  extract_links (Some (str "https://b.io")) = [str "https://b.io"]
  /\ (8 <= length (str "https://b.io"))%nat.
Proof.
  destruct (extract_links_fixed
              (Some (str "see http://a.io, (https://b.io) and more"))
              (str "https://b.io")) as (Hfix & Hlen & _).
  - vm_compute. right. left.
  - split; [ exact Hfix | exact Hlen ].
Defined.

Lemma url_prefix_stays (m rest u s2 : pystr) (c : char) :
  m ++ rest = u ++ c :: s2 ->
  Forall (fun x => link_char x = true) m -> link_char c = false ->
  exists u', u = m ++ u'.
Proof.
  intros E Hm Hc. revert u E. induction Hm as [|x m Hx _ IH]; intros u E.
  - by exists u.
  - destruct u as [|y u]; cbn in E; injection E as -> E.
    + congruence.
    + destruct (IH u E) as [u' ->]. by exists u'.
Qed.

Lemma starts_url_before (u s2 : pystr) (c : char) :
  link_char c = false -> starts_url (u ++ c :: s2) -> starts_url u.
Proof.
  intros Hc (m & rest & E & Hurl).
  destruct (url_prefix_stays m rest u s2 c) as [u' ->];
    [ done | by apply is_url_chars | done | ].
  by exists m, u'.
Qed.

Lemma not_starts_url_terminator (s : pystr) (c : char) :
  link_char c = false -> ~ starts_url (c :: s).
Proof.
  intros Hc Hstart. apply (starts_url_before [] s c Hc) in Hstart.
  destruct Hstart as (m & rest & E & Hurl).
  symmetry in E. apply app_eq_nil in E as [-> _].
  by apply is_url_nonempty in Hurl.
Qed.

Lemma url_scan_app (s1 s2 : pystr) (l1 l2 : list pystr) (c : char) :
  link_char c = false ->
  url_scan s1 l1 -> url_scan s2 l2 -> url_scan (s1 ++ c :: s2) (l1 ++ l2).
Proof.
  intros Hc H1 H2.
  induction H1 as [s Hnone | pre m post ms Hpre Hurl Hpost _ IH].
  - cbn [app]. induction s as [|x s IH].
    + apply url_scan_cons; [ by apply not_starts_url_terminator | done ].
    + cbn [app]. apply url_scan_cons.
      * intros Hstart. apply (Hnone 0%nat).
        by apply (starts_url_before (x :: s) s2 c).
      * apply IH. intros i. apply (Hnone (S i)).
  - rewrite <- !app_assoc. cbn [app].
    change (m :: ms ++ l2) with (m :: (ms ++ l2)).
    apply scan_hit; [ | done | | done ].
    + intros i Hi Hstart. apply (Hpre i Hi).
      rewrite !app_assoc in Hstart. rewrite drop_app_le in Hstart
        by (rewrite !length_app; lia).
      rewrite <- !app_assoc in Hstart.
      by apply (starts_url_before _ s2 c).
    + intros x. destruct post as [|y post]; cbn.
      * by intros [= <-].
      * apply Hpost.
Qed.

(** X3: links never reach across a terminator.  Around a character that
    is white space or one of [)], [>], []], the links of a text are those
    of the part before it followed by those of the part after it. *)
Theorem extract_links_split (s1 s2 : pystr) (c : char) :
  link_char c = false ->
  extract_links (Some (s1 ++ c :: s2))
  = extract_links (Some s1) ++ extract_links (Some s2).
Proof.
  intros Hc. rewrite !extract_links_findall. cbn [default].
  symmetry. apply url_scan_findall.
  apply url_scan_app; [ done | apply findall_scans .. ].
Qed.

Lemma extract_links_split_witness :
  extract_links (Some (str "(http://a.io" ++ ch ")" :: str "and http://b.io"))
  = extract_links (Some (str "(http://a.io"))
    ++ extract_links (Some (str "and http://b.io")).
Proof. apply extract_links_split. reflexivity. Defined.

(** ** The link hint *)

Lemma url_scan_total_length (s : pystr) (l : list pystr) :
  url_scan s l -> (sum_list (length <$> l) <= length s)%nat.
Proof.
  induction 1 as [s _ | pre m post ms _ _ _ _ IH]; cbn.
  - lia.
  - rewrite !length_app. lia.
Qed.

Lemma sum_list_take_length (n : nat) (l : list pystr) :
  (sum_list (length <$> take n l) <= sum_list (length <$> l))%nat.
Proof.
  revert n. induction l as [|x l IH]; intros [|n]; cbn; try lia.
  specialize (IH n). lia.
Qed.

Lemma join_length (sep : pystr) (parts : list pystr) :
  length (join sep parts)
  = (sum_list (length <$> parts) + length sep * pred (length parts))%nat.
Proof.
  induction parts as [|p parts IH]; [ cbn; lia | ].
  destruct parts as [|q parts]; [ cbn; lia | ].
  change (join sep (p :: q :: parts)) with (p ++ sep ++ join sep (q :: parts)).
  rewrite !length_app, IH. cbn. lia.
Qed.

Lemma bullets_length (items : list pystr) :
  sum_list (length <$> map (fun u => str "• " ++ u) items)
  = (2 * length items + sum_list (length <$> items))%nat.
Proof.
  induction items as [|u items IH]; [ reflexivity | ].
  change (map (fun u => str "• " ++ u) (u :: items))
    with ((str "• " ++ u) :: map (fun u => str "• " ++ u) items).
  rewrite !fmap_cons. cbn [sum_list sum_list_with length].
  rewrite IH, length_app. change (length (str "• ")) with 2%nat.
  unfold id. lia.
Qed.

Lemma link_hint_text (links : list pystr) :
  links <> [] ->
  _link_hint_blocks links
  = [_mk_section (LINK_HINT_HEADER ++ newline
                  ++ join newline
                       (map (fun u => str "• " ++ u) (take 3 links)))].
Proof.
  intros Hne. destruct links as [|m ms]; [ congruence | ].
  unfold _link_hint_blocks, LINK_HINT_HEADER. reflexivity.
Qed.

Lemma link_hint_length (text : pystr) :
  Forall (fun b => exists t,
            b = _mk_section t /\ (length t <= length text + 48)%nat)
    (_link_hint_blocks (extract_links (Some text))).
Proof.
  destruct (extract_links (Some text)) as [|m ms] eqn:E; [ constructor | ].
  rewrite link_hint_text by done.
  constructor; [ | constructor ]. eexists. split; [ reflexivity | ].
  rewrite !length_app, join_length, bullets_length, length_map.
  change (length LINK_HINT_HEADER) with 39%nat.
  change (length newline) with 1%nat.
  pose proof (url_scan_total_length _ _ (findall_scans text)) as Htotal.
  rewrite extract_links_findall in E.
  change (default [] (Some text)) with text in E. rewrite E in Htotal.
  pose proof (sum_list_take_length 3 (m :: ms)) as Htake.
  rewrite !length_take. revert Htotal Htake.
  generalize (sum_list (length <$> take 3 (m :: ms))),
    (sum_list (length <$> m :: ms)), (length (m :: ms)).
  intros a b k. lia.
Qed.

(** X4: the cap of 3000 characters does not cover the link hint.  When
    [unescape] returns on the answer, the hint is at most one block, a
    section whose text is at most 48 characters longer than the cut
    answer, hence at most 3048 characters. *)
Theorem link_hint_text_bound `{Interpreter} (self : BlockKit) (s u : pystr) :
  llm_answer self = Some s -> s <> [] -> unescape s = Ok u ->
  exists hint,
    build_answer_blocks self
    = Ok (wrapper (([section_block PREAMBLE; section_block (take 3000 u)]
                    ++ hint) ++ feedback_block_kit))
    /\ (length hint <= 1)%nat
    /\ Forall (fun b => exists t,
                 b = section_block t
                 /\ (length t <= length (take 3000 u) + 48)%nat
                 /\ (length t <= 3048)%nat) hint.
Proof.
  intros Hs Hne Hu. eexists. split; [ | split ].
  - apply (build_answer_blocks_answer _ _ _ Hs Hne Hu).
  - destruct (extract_links (Some (take 3000 u))) as [|m ms];
      [ apply Nat.le_0_l | by rewrite link_hint_text ].
  - eapply Forall_impl; [ apply link_hint_length | ].
    intros b (t & -> & Hlen). exists t.
    split; [ reflexivity | split; [ done | ] ].
    rewrite length_take in Hlen. lia.
Qed.

(** X4 at a URL of 3000 characters: its hint has 3042 characters. *)
Lemma link_hint_text_bound_witness :
  (exists hint,
     @build_answer_blocks cpython (with_answer blank (Some long_url))
     = Ok (wrapper (([section_block PREAMBLE;
                      section_block (take 3000 long_url)]
                     ++ hint) ++ feedback_block_kit))
     /\ (length hint <= 1)%nat
     /\ Forall (fun b => exists t,
                  b = section_block t
                  /\ (length t <= length (take 3000 long_url) + 48)%nat
                  /\ (length t <= 3048)%nat) hint)
  /\ @build_answer_blocks cpython (with_answer blank (Some long_url))
     = Ok (wrapper (([section_block PREAMBLE; section_block long_url]
                     ++ [section_block (LINK_HINT_HEADER ++ newline
                                        ++ str "• " ++ long_url)])
                    ++ feedback_block_kit))
  /\ length (LINK_HINT_HEADER ++ newline ++ str "• " ++ long_url) = 3042%nat.
Proof.
  split; [ | split; vm_compute; reflexivity ].
  apply (@link_hint_text_bound cpython
           (with_answer blank (Some long_url)) long_url long_url eq_refl).
  - discriminate.
  - vm_compute. reflexivity.
Defined.

(** ** Reading the link hint back *)

Lemma findall_split (s1 s2 : pystr) (c : char) :
  link_char c = false ->
  HTTP_LINK_RE_findall (s1 ++ c :: s2)
  = HTTP_LINK_RE_findall s1 ++ HTTP_LINK_RE_findall s2.
Proof.
  intros Hc. symmetry. apply url_scan_findall.
  apply url_scan_app; [ done | apply findall_scans .. ].
Qed.

Lemma findall_bullet (u : pystr) :
  is_url u -> HTTP_LINK_RE_findall (bullet u) = [u].
Proof.
  intros Hurl. unfold bullet.
  change (str "• " ++ u) with ([8226%N] ++ 32%N :: u).
  rewrite findall_split by reflexivity. rewrite (findall_url u Hurl).
  by replace (HTTP_LINK_RE_findall [8226%N]) with (@nil pystr)
    by (vm_compute; reflexivity).
Qed.

Lemma findall_bullets (items : list pystr) :
  Forall is_url items ->
  HTTP_LINK_RE_findall (join newline (map bullet items)) = items.
Proof.
  induction 1 as [|u items Hu Hitems IH]; [ reflexivity | ].
  destruct items as [|v items].
  - by apply findall_bullet.
  - change (join newline (map bullet (u :: v :: items)))
      with (bullet u ++ 10%N :: join newline (map bullet (v :: items))).
    rewrite findall_split by reflexivity.
    by rewrite (findall_bullet u Hu), IH.
Qed.

Lemma split_on_first (c : char) (l rest : pystr) :
  Forall (fun x => x <> c) l ->
  split_on c (l ++ c :: rest) = l :: split_on c rest.
Proof.
  induction 1 as [|x l Hx _ IH]; cbn [app split_on].
  - by rewrite N.eqb_refl.
  - apply N.eqb_neq in Hx. by rewrite Hx, IH.
Qed.

Lemma split_on_last (c : char) (l : pystr) :
  Forall (fun x => x <> c) l -> split_on c l = [l].
Proof.
  induction 1 as [|x l Hx _ IH]; cbn [split_on]; [ done | ].
  apply N.eqb_neq in Hx. by rewrite Hx, IH.
Qed.

Lemma split_on_join (c : char) (parts : list pystr) :
  parts <> [] -> Forall (Forall (fun x => x <> c)) parts ->
  split_on c (join [c] parts) = parts.
Proof.
  intros Hne Hparts. induction Hparts as [|p parts Hp Hparts IH]; [ done | ].
  destruct parts as [|q parts].
  - by apply split_on_last.
  - change (join [c] (p :: q :: parts)) with (p ++ c :: join [c] (q :: parts)).
    rewrite split_on_first by done. by rewrite IH.
Qed.

Lemma bullet_one_line (u : pystr) :
  is_url u -> Forall (fun x => x <> 10%N) (bullet u).
Proof.
  intros Hurl. unfold bullet. change (str "• ") with [8226%N; 32%N].
  repeat (constructor; [ done | ]).
  eapply Forall_impl; [ exact (is_url_chars u Hurl) | ].
  by intros x Hx ->.
Qed.

Lemma link_hint_header_one_line :
  Forall (fun x => x <> 10%N) LINK_HINT_HEADER.
Proof. vm_compute. repeat (constructor; [ discriminate | ]). constructor. Qed.

(** X5: the link hint can be read back.  When the answer holds a link, the
    hint is one section; [extract_links] finds in its text the first
    three links of the answer and nothing else; and its lines are the
    header followed by one bullet line for each of them. *)
Theorem link_hint_read_back (text : pystr) :
  extract_links (Some text) <> [] ->
  exists t,
    _link_hint_blocks (extract_links (Some text)) = [_mk_section t]
    /\ extract_links (Some t) = take 3 (extract_links (Some text))
    /\ split_on 10 t
       = LINK_HINT_HEADER :: map bullet (take 3 (extract_links (Some text))).
Proof.
  intros Hne.
  assert (Forall is_url (take 3 (extract_links (Some text)))) as Hurls.
  { apply Forall_take. rewrite extract_links_findall.
    apply (url_scan_urls _ _ (findall_scans _)). }
  rewrite link_hint_text by done.
  remember (extract_links (Some text)) as links eqn:El. clear El.
  change (map (fun u => str "• " ++ u) (take 3 links))
    with (map bullet (take 3 links)).
  change (LINK_HINT_HEADER ++ newline ++ ?b)
    with (LINK_HINT_HEADER ++ 10%N :: b).
  eexists. split; [ reflexivity | split ].
  - rewrite extract_links_findall.
    change (default [] (Some ?s)) with s.
    rewrite findall_split by reflexivity.
    rewrite (findall_bullets _ Hurls).
    by replace (HTTP_LINK_RE_findall LINK_HINT_HEADER) with (@nil pystr)
      by (vm_compute; reflexivity).
  - rewrite split_on_first by apply link_hint_header_one_line.
    f_equal. apply (split_on_join 10%N).
    + by destruct links.
    + apply Forall_fmap. eapply Forall_impl; [ exact Hurls | ].
      intros u Hu. by apply bullet_one_line.
Qed.

(** X5 at an answer with four links: the hint lists the first three. *)
Lemma link_hint_read_back_witness :
  exists t,
    _link_hint_blocks
      (extract_links
         (Some (str "http://a.io http://b.io http://c.io http://d.io")))
    = [_mk_section t]
    /\ extract_links (Some t)
       = [str "http://a.io"; str "http://b.io"; str "http://c.io"]
    /\ split_on 10 t
       = [LINK_HINT_HEADER; str "• http://a.io"; str "• http://b.io";
          str "• http://c.io"].
Proof.
  destruct (link_hint_read_back
              (str "http://a.io http://b.io http://c.io http://d.io"))
    as (t & Hblocks & Hlinks & Hlines); [ vm_compute; discriminate | ].
  exists t. split; [ exact Hblocks | split ].
  - rewrite Hlinks. vm_compute. reflexivity.
  - rewrite Hlines. vm_compute. reflexivity.
Defined.

(** ** A message that needs no edit *)

Lemma dict_set_same {V} (d : dict V) (k : pystr) (v : V) :
  dict_get d k = Some v -> dict_set d k v = d.
Proof.
  induction d as [|[k' v'] d IH]; cbn [dict_get dict_set]; [ done | ].
  destruct (decide (k' = k)) as [-> | Hne].
  - by intros [= ->].
  - intros E. by rewrite IH.
Qed.

Lemma settled_decodable `{Interpreter} (σ : store) (item : val) :
  settled σ item -> decodable σ item.
Proof.
  intros Hset t td s Et Etd Hs. destruct (Hset t td s Et Etd Hs) as [Hamp _].
  apply unescape_returns. exists s. by apply unescape_without_ampersand.
Qed.

Lemma update_item_settled `{Interpreter} (σ : store) (item : val) :
  editable σ item -> settled σ item -> update_item item σ = Returns tt σ.
Proof.
  intros Hed Hset.
  rewrite (update_item_editable _ _ Hed (settled_decodable _ _ Hset)).
  destruct (slot_of σ item) as [t|] eqn:Et; [ | done ].
  f_equal. apply list_eq. intros i. rewrite list_lookup_alter.
  destruct (decide (t = i)) as [<- | Hne]; [ | done ].
  destruct (σ !! t) as [[td|l]|] eqn:Etd;
    cbn [fmap option_fmap option_map]; try done.
  unfold retext.
  destruct (dict_get td (str "text")) as [[| | |s|]|] eqn:Es; try done.
  destruct (Hset t td s Et Etd Es) as [Hamp Hlen].
  rewrite unescape_without_ampersand by done.
  rewrite take_ge by lia. by rewrite dict_set_same.
Qed.

Lemma update_items_settled `{Interpreter} (items updated : list val) (σ : store) :
  Forall (editable σ) items -> Forall (settled σ) items ->
  update_items items updated σ = Returns (updated ++ items) σ.
Proof.
  intros Hed. revert updated.
  induction Hed as [|item items Hitem _ IH]; intros updated Hset.
  - cbn [update_items]. by rewrite app_nil_r.
  - apply Forall_cons in Hset as [Hs Hset]. cbn [update_items].
    rewrite (bind_returns _ _ _ _ _ (update_item_settled _ _ Hitem Hs)).
    rewrite IH by done. by rewrite <- app_assoc.
Qed.

(** X6: a message that needs no edit is left as it is.  When the text of
    every section of [block_body] holds no ampersand and at most 3000
    characters, [feedback_update_block] returns the caller's blocks and
    changes no object, whether or not two blocks share a text dict. *)
Theorem feedback_update_block_settled `{Interpreter} (self : BlockKit)
    (σ : store) (items : list val) :
  block_body self = Some items -> items <> [] ->
  Forall (editable σ) items -> Forall (settled σ) items ->
  feedback_update_block self σ = Returns (Existing items) σ.
Proof.
  intros Hb Hne Hed Hset. rewrite (feedback_update_block_body _ _ Hb Hne).
  by rewrite (bind_returns _ _ _ _ _ (update_items_settled _ [] _ Hed Hset)).
Qed.

Lemma shared_text_message_settled :
  Forall (settled shared_text_message) [VRef 0; VRef 2; VRef 3].
Proof.
  assert (forall t td s,
            t = 1%nat -> shared_text_message !! t = Some (ODict td) ->
            dict_get td (str "text") = Some (VStr s) ->
            (ch "&" ∉ s) /\ (length s <= 3000)%nat) as Hone.
  { intros t td s -> [= <-]. vm_compute. intros [= <-].
    split; [ | lia ]. intros Hin.
    repeat (apply elem_of_cons in Hin as [Hin | Hin]; [ discriminate | ]).
    inversion Hin. }
  assert (slot_of shared_text_message (VRef 0) = Some 1%nat) as E0
    by (vm_compute; reflexivity).
  assert (slot_of shared_text_message (VRef 2) = None) as E2
    by (vm_compute; reflexivity).
  assert (slot_of shared_text_message (VRef 3) = Some 1%nat) as E3
    by (vm_compute; reflexivity).
  constructor; [ | constructor; [ | constructor; [ | constructor ] ] ];
    intros t td s Et; apply Hone; congruence.
Qed.

(** X6 at a message whose two sections share their text dict. *)
Lemma feedback_update_block_settled_witness :
  @feedback_update_block cpython
    (with_block_body blank (Some [VRef 0; VRef 2; VRef 3]))
    shared_text_message
  = Returns (Existing [VRef 0; VRef 2; VRef 3]) shared_text_message.
Proof.
  apply (@feedback_update_block_settled cpython
           (with_block_body blank (Some [VRef 0; VRef 2; VRef 3]))
           shared_text_message [VRef 0; VRef 2; VRef 3] eq_refl).
  - discriminate.
  - exact shared_text_message_editable.
  - exact shared_text_message_settled.
Defined.

(** ** A failed edit is not undone *)

Lemma update_items_app `{Interpreter} (l1 l2 updated : list val) (σ : store) :
  update_items (l1 ++ l2) updated σ
  = match update_items l1 updated σ with
    | Returns r σ1 => update_items l2 r σ1
    | Raises e σ1 => Raises e σ1
    end.
Proof.
  revert updated σ.
  induction l1 as [|x l1 IH]; intros updated σ; [ reflexivity | ].
  cbn [app update_items]. unfold mbind, M_bind.
  destruct (update_item x σ) as [[] σ1 | e σ1]; [ apply IH | reflexivity ].
Qed.

(** One turn of the loop on a section whose [text] is a string. *)
Lemma update_item_string_text `{Interpreter} (σ : store) (a : addr) (d : dict val)
    (s : pystr) :
  σ !! a = Some (ODict d) -> is_text_section d = true ->
  dict_get d (str "text") = Some (VStr s) ->
  update_item (VRef a) σ = Raises TypeError σ.
Proof.
  intros Ea Hsec Hs. unfold update_item.
  rewrite (bind_returns _ _ _ _ _ (as_dict_returns _ _ _ Ea)). rewrite Hsec.
  by rewrite (bind_returns _ _ _ _ _ (py_getitem_returns _ _ _ _ _ Ea Hs)).
Qed.

(** X7: a failed edit is not undone.  When [block_body] holds, after
    blocks that can be edited and whose texts [unescape] accepts, a
    section whose [text] is a plain string, [feedback_update_block]
    raises [TypeError] and leaves the sections before it edited: their
    texts are unescaped and cut, every other object is as it was. *)
Theorem feedback_update_block_not_undone `{Interpreter} (self : BlockKit)
    (σ : store) (good rest : list val) (a : addr) (d : dict val) (s : pystr) :
  block_body self = Some (good ++ VRef a :: rest) ->
  Forall (editable σ) good -> Forall (decodable σ) good ->
  NoDup (slots σ good) ->
  σ !! a = Some (ODict d) -> is_text_section d = true ->
  dict_get d (str "text") = Some (VStr s) ->
  exists σ',
    feedback_update_block self σ = Raises TypeError σ'
    /\ length σ' = length σ
    /\ (forall t, t ∉ slots σ good -> σ' !! t = σ !! t)
    /\ (forall t, t ∈ slots σ good ->
          exists td s u,
            σ !! t = Some (ODict td)
            /\ dict_get td (str "text") = Some (VStr s)
            /\ unescape s = Ok u
            /\ σ' !! t
               = Some (ODict (dict_set td (str "text")
                                (VStr (take 3000 u))))).
Proof.
  intros Hb Hed Hdec Hnd Ea Hsec Hs.
  rewrite (feedback_update_block_body _ _ Hb) by (by destruct good).
  destruct (update_items_editable good [] σ Hed Hdec Hnd)
    as (σ1 & Hrun & Hlen & Hlook).
  assert (exists d' s',
            σ1 !! a = Some (ODict d') /\ is_text_section d' = true
            /\ dict_get d' (str "text") = Some (VStr s'))
    as (d' & s' & Ea' & Hsec' & Hs').
  { specialize (Hlook a). rewrite Ea in Hlook.
    destruct (decide (a ∈ slots σ good)); [ | by exists d, s ].
    cbn [fmap option_fmap option_map] in Hlook.
    destruct (retext_changes (ODict d))
      as [E | (td & s0 & u & [= <-] & Hs0 & _ & E)];
      rewrite E in Hlook; [ by exists d, s | ].
    do 2 eexists. split; [ exact Hlook | ].
    split; [ | apply dict_get_set_eq ].
    rewrite is_text_section_set_text; [ done | ].
    unfold dict_contains. by rewrite Hs. }
  exists σ1. split; [ | split; [ done | split ] ].
  - unfold mbind at 1, M_bind at 1. rewrite update_items_app, Hrun.
    cbn [update_items]. unfold mbind, M_bind.
    by rewrite (update_item_string_text _ _ _ _ Ea' Hsec' Hs').
  - intros t Ht. rewrite Hlook. by rewrite decide_False.
  - intros t Ht. destruct (slots_text _ _ _ Hed Ht) as (td & s0 & Etd & Hs0).
    destruct (slots_decode _ _ _ _ _ Hdec Ht Etd Hs0) as [u Hu].
    exists td, s0, u. split; [ done | split; [ done | split; [ done | ] ] ].
    rewrite Hlook, decide_True by done. rewrite Etd.
    cbn [fmap option_fmap option_map]. unfold retext. by rewrite Hs0, Hu.
Qed.

Lemma half_good_message_editable :
  Forall (editable half_good_message) [VRef 0; VRef 2].
Proof.
  repeat constructor.
  - eexists. split; [ reflexivity | ]. intros _.
    do 3 eexists. split; [ vm_compute; reflexivity | ].
    split; [ reflexivity | vm_compute; reflexivity ].
  - eexists. split; [ reflexivity | ]. vm_compute. discriminate.
Qed.

Lemma half_good_message_decodable :
  Forall (@decodable cpython half_good_message) [VRef 0; VRef 2].
Proof.
  constructor; [ | constructor; [ | constructor ] ];
    apply decodable_short; vm_compute; done.
Qed.

(** X7 at [posted_message] followed by a section with a plain string: the
    call raises, and the text of the first section is unescaped. *)
Lemma feedback_update_block_not_undone_witness :
  exists σ',
    @feedback_update_block cpython
      (with_block_body blank (Some [VRef 0; VRef 2; VRef 3]))
      half_good_message
    = Raises TypeError σ'
    /\ σ' !! 1%nat
       = Some (ODict [(str "type", VStr (str "mrkdwn"));
                      (str "text", VStr (str "1 < 2 & 3 > 2"))])
    /\ σ' !! 3%nat = half_good_message !! 3%nat.
Proof.
  destruct (@feedback_update_block_not_undone cpython
              (with_block_body blank (Some [VRef 0; VRef 2; VRef 3]))
              half_good_message [VRef 0; VRef 2] [] 3%nat
              [(str "type", VStr (str "section"));
               (str "text", VStr (str "Hello"))]
              (str "Hello") eq_refl half_good_message_editable
              half_good_message_decodable)
    as (σ' & Hrun & _ & Hframe & Hslots).
  - vm_compute. repeat constructor; intros Hin; inversion Hin.
  - reflexivity.
  - vm_compute. reflexivity.
  - vm_compute. reflexivity.
  - exists σ'. split; [ exact Hrun | split ].
    + destruct (Hslots 1%nat) as (td & s & u & Etd & Hs & Hu & ->).
      { vm_compute. left. }
      injection Etd as <-.
      replace (dict_get [(str "type", VStr (str "mrkdwn"));
                         (str "text", VStr (str "1 &#60; 2 &#38; 3 &#62; 2"))]
                 (str "text"))
        with (Some (VStr (str "1 &#60; 2 &#38; 3 &#62; 2"))) in Hs
        by (vm_compute; reflexivity).
      injection Hs as <-.
      replace (@unescape cpython (str "1 &#60; 2 &#38; 3 &#62; 2"))
        with (@Ok pystr (str "1 < 2 & 3 > 2")) in Hu
        by (vm_compute; reflexivity).
      injection Hu as <-. vm_compute. reflexivity.
    + apply Hframe. vm_compute. intros Hin.
      apply elem_of_cons in Hin as [Hin | Hin]; [ discriminate | inversion Hin ].
Defined.

(** ** Editing twice *)

(** X8: editing twice is editing once, when the first edit leaves no
    ampersand.  If [unescape] accepts the text of every section and the
    unescaped, cut text holds no ampersand, a second
    [feedback_update_block] on the message the first one has left returns
    the same blocks and changes no object. *)
Theorem feedback_update_block_twice `{Interpreter} (self : BlockKit)
    (σ : store) (items : list val) :
  block_body self = Some items -> items <> [] ->
  Forall (editable σ) items -> Forall (decodable σ) items ->
  NoDup (slots σ items) ->
  (forall t td s u,
     t ∈ slots σ items -> σ !! t = Some (ODict td) ->
     dict_get td (str "text") = Some (VStr s) -> unescape s = Ok u ->
     ch "&" ∉ take 3000 u) ->
  exists σ',
    feedback_update_block self σ = Returns (Existing items) σ'
    /\ feedback_update_block self σ' = Returns (Existing items) σ'.
Proof.
  intros Hb Hne Hed Hdec Hnd Hamp.
  rewrite !(feedback_update_block_body _ _ Hb Hne).
  destruct (update_items_editable items [] σ Hed Hdec Hnd)
    as (σ' & Hrun & _ & Hlook).
  exists σ'. split; [ by rewrite (bind_returns _ _ _ _ _ Hrun) | ].
  assert (Forall (fun item => editable σ' item
                              /\ slot_of σ' item = slot_of σ item) items)
    as Hsame.
  { eapply Forall_impl; [ exact Hed | ].
    intros item Hitem.
    by apply (editable_retext σ σ' (fun a => a ∈ slots σ items)). }
  assert (Forall (editable σ') items) as Hed'
    by (eapply Forall_impl; [ exact Hsame | by intros ? [? _] ]).
  assert (Forall (settled σ') items) as Hset.
  { rewrite Forall_forall in Hsame. apply Forall_forall.
    intros item Hin t td' s' Et Etd' Hs'.
    destruct (Hsame item Hin) as [_ Eslot]. rewrite Eslot in Et.
    assert (t ∈ slots σ items) as Ht.
    { unfold slots. apply list_elem_of_omap. by exists item. }
    destruct (slots_text _ _ _ Hed Ht) as (td & s & Etd & Hs).
    destruct (slots_decode _ _ _ _ _ Hdec Ht Etd Hs) as [u Hu].
    rewrite Hlook, decide_True, Etd in Etd' by done.
    cbn [fmap option_fmap option_map] in Etd'. unfold retext in Etd'.
    rewrite Hs, Hu in Etd'. injection Etd' as <-.
    rewrite dict_get_set_eq in Hs'. injection Hs' as <-.
    split; [ by apply (Hamp t td s u) | ].
    rewrite length_take. lia. }
  by rewrite (bind_returns _ _ _ _ _ (update_items_settled _ [] _ Hed' Hset)).
Qed.

Lemma escaped_once_message_editable :
  Forall (editable escaped_once_message) [VRef 0].
Proof.
  repeat constructor.
  eexists. split; [ reflexivity | ]. intros _.
  do 3 eexists. split; [ vm_compute; reflexivity | ].
  split; [ reflexivity | vm_compute; reflexivity ].
Qed.

(** X8 at a section that reads [1 &#60; 2]: both edits leave [1 < 2]. *)
Lemma feedback_update_block_twice_witness :
  exists σ',
    @feedback_update_block cpython (with_block_body blank (Some [VRef 0]))
      escaped_once_message
    = Returns (Existing [VRef 0]) σ'
    /\ @feedback_update_block cpython
         (with_block_body blank (Some [VRef 0])) σ'
       = Returns (Existing [VRef 0]) σ'.
Proof.
  apply (@feedback_update_block_twice cpython
           (with_block_body blank (Some [VRef 0]))
           escaped_once_message [VRef 0] eq_refl).
  - discriminate.
  - exact escaped_once_message_editable.
  - constructor; [ | constructor ]. apply decodable_short. vm_compute. done.
  - vm_compute. repeat constructor; intros Hin; inversion Hin.
  - assert (slots escaped_once_message [VRef 0] = [1%nat]) as ->
      by (vm_compute; reflexivity).
    intros t td s u ->%list_elem_of_singleton [= <-].
    replace (dict_get [(str "type", VStr (str "mrkdwn"));
                       (str "text", VStr (str "1 &#60; 2"))] (str "text"))
      with (Some (VStr (str "1 &#60; 2"))) by (vm_compute; reflexivity).
    intros [= <-].
    replace (@unescape cpython (str "1 &#60; 2"))
      with (@Ok pystr (str "1 < 2")) by (vm_compute; reflexivity).
    intros [= <-]. vm_compute. intros Hin.
    repeat (apply elem_of_cons in Hin as [Hin | Hin]; [ discriminate | ]).
    inversion Hin.
Defined.
